(** * A vehicle-sales conversational agent: catalogue, session store,
      clarification guard, decision router and presenter

    Shallow embedding of the turn-processing core of the agent:

    - [PyStr]      the operations of Python's [str] and [int] the code uses;
    - [Core]       src/core/models.py (messages, contexts, decisions);
    - [Catalog]    src/domain/catalog and src/tools/catalog/inventory.py;
    - [Storage]    src/adapters/storage/local_adapter.py;
    - [Agent]      src/agent/models.py, handlers/catalog.py, router.py and
                   presenter.py;
    - [Processor]  the clarification guard of
                   src/services/message_processor.py;
    - [Selection]  the selection and search-result methods of a context
                   (src/core/models.py);
    - [Conversation] src/agent/services/conversation.py.

    The definitions come first, the properties after them.

    Conventions.  Python [int] is [Z]; [float] (prices) is [Q], the finite
    floats without NaN; [str] is [string], read as ASCII text (bytes above
    127 are uncased and never whitespace); [None]-able values are
    [option]; a [datetime] is a number of microseconds in [Z] and a
    [timedelta] a difference of two of them; a raised exception is the
    left injection of a sum.  The catalogue argument [catalog] of the
    inventory functions is the list cached by [_load_catalog_data]: the
    functions are modelled from the point where the dataset is loaded. *)

From Stdlib Require Import ZArith QArith List String Ascii Bool Lia DecimalString Sorting.
From stdpp Require Import base gmap strings list fin_maps.

Close Scope Q_scope.
Open Scope Z_scope.

(** ** Python strings *)

Module PyStr.

Definition code (c : ascii) : nat := nat_of_ascii c.

Definition isupper (c : ascii) : bool :=
  (65 <=? code c)%nat && (code c <=? 90)%nat.

Definition islower (c : ascii) : bool :=
  (97 <=? code c)%nat && (code c <=? 122)%nat.

Definition iscased (c : ascii) : bool := isupper c || islower c.

(** [str.isspace] on one ASCII character: TAB..CR, FS..US and the space. *)
Definition isspace (c : ascii) : bool :=
  ((9 <=? code c)%nat && (code c <=? 13)%nat)
  || ((28 <=? code c)%nat && (code c <=? 32)%nat).

Definition isdigit (c : ascii) : bool :=
  (48 <=? code c)%nat && (code c <=? 57)%nat.

Definition lower_char (c : ascii) : ascii :=
  if isupper c then ascii_of_nat (code c + 32) else c.

Definition upper_char (c : ascii) : ascii :=
  if islower c then ascii_of_nat (code c - 32) else c.

(** [s.lower()] *)
Fixpoint lower (s : string) : string :=
  match s with
  | EmptyString => EmptyString
  | String c s' => String (lower_char c) (lower s')
  end.

Fixpoint lstrip (s : string) : string :=
  match s with
  | EmptyString => EmptyString
  | String c s' => if isspace c then lstrip s' else s
  end.

Definition rstrip (s : string) : string :=
  String.rev (lstrip (String.rev s)).

(** [s.strip()] *)
Definition strip (s : string) : string := rstrip (lstrip s).

(** [s.title()]: a character that follows a cased one is lower-cased,
    any other is upper-cased. *)
Fixpoint title_from (previous_is_cased : bool) (s : string) : string :=
  match s with
  | EmptyString => EmptyString
  | String c s' =>
      String (if previous_is_cased then lower_char c else upper_char c)
             (title_from (iscased c) s')
  end.

Definition title (s : string) : string := title_from false s.

(** Truth value of a string: [bool(s)]. *)
Definition truthy (s : string) : bool :=
  match s with EmptyString => false | String _ _ => true end.

(** Truth value of an optional string: [None] and [""] are false. *)
Definition truthy_opt (o : option string) : bool :=
  match o with Some s => truthy s | None => false end.

(** [sub in s] *)
Fixpoint contains (sub s : string) : bool :=
  String.prefix sub s
  || match s with
     | EmptyString => false
     | String _ s' => contains sub s'
     end.

(** [sep.join(parts)] *)
Fixpoint join (sep : string) (parts : list string) : string :=
  match parts with
  | [] => EmptyString
  | [p] => p
  | p :: rest => p +:+ sep +:+ join sep rest
  end.

(** [str(n)] and [f"{n}"] for an [int]. *)
Definition str_of_int (n : Z) : string :=
  NilZero.string_of_int (Z.to_int n).

Definition digit_value (c : ascii) : Z := Z.of_nat (code c - 48).

(** The digits of a decimal literal: digits with single underscores
    between them; the rest of the text is returned with the value. *)
Fixpoint digits_from (acc : Z) (after_underscore : bool) (s : string)
  : option (Z * string) :=
  match s with
  | EmptyString => if after_underscore then None else Some (acc, EmptyString)
  | String c s' =>
      if isdigit c then digits_from (acc * 10 + digit_value c) false s'
      else if Ascii.eqb c "_" then
        if after_underscore then None else digits_from acc true s'
      else if after_underscore then None else Some (acc, s)
  end.

Definition unsigned_of_str (s : string) : option Z :=
  match s with
  | String c _ =>
      if isdigit c then
        match digits_from 0 false s with
        | Some (n, rest) =>
            match lstrip rest with
            | EmptyString => Some n
            | String _ _ => None
            end
        | None => None
        end
      else None
  | EmptyString => None
  end.

(** [int(s)] for a [str]: surrounding whitespace, an optional sign, then
    decimal digits; [None] stands for [ValueError]. *)
Definition int_of_str (s : string) : option Z :=
  match lstrip s with
  | String "-" s' => option_map Z.opp (unsigned_of_str s')
  | String "+" s' => unsigned_of_str s'
  | s' => unsigned_of_str s'
  end.

(** [sorted(xs)] on strings: ascending code-point order. *)
Fixpoint insert_sorted (x : string) (l : list string) : list string :=
  match l with
  | [] => [x]
  | y :: l' => if String.leb x y then x :: l else y :: insert_sorted x l'
  end.

Definition sorted (l : list string) : list string :=
  fold_right insert_sorted [] l.

(** [sorted({...})]: the distinct elements, in ascending order. *)
Definition sorted_set (l : list string) : list string :=
  sorted (nodup string_dec l).

End PyStr.

(** ** Core models (src/core/models.py) *)

Module Core.

(** A [datetime], in microseconds. *)
Definition datetime := Z.

Inductive MessageRole := USER | ASSISTANT | SYSTEM.

Record Message := mkMessage {
  role : MessageRole;
  content : string;
  timestamp : datetime
}.

Record SelectedVehicle := mkSelectedVehicle {
  sv_stock_id : Z;
  sv_make : string;
  sv_model : string;
  sv_year : Z;
  sv_price : Q;
  sv_km : Z
}.

Record ConversationContext := mkContext {
  session_id : string;
  messages : list Message;
  selected_vehicle : option SelectedVehicle;
  last_search_results : list SelectedVehicle;
  last_action : option string;
  created_at : datetime;
  updated_at : datetime
}.

Definition MAX_MESSAGES : nat := 20.

(** [ConversationContext(session_id=sid)], built at time [now]. *)
Definition new_context (sid : string) (now : datetime) : ConversationContext :=
  {| session_id := sid; messages := []; selected_vehicle := None;
     last_search_results := []; last_action := None;
     created_at := now; updated_at := now |}.

(** [xs[-n:]] for [n > 0]: the last [n] elements, all of them when the
    list is shorter. *)
Definition last_n {A} (n : nat) (xs : list A) : list A :=
  skipn (length xs - n) xs.

(** [add_message]; [now] is the clock read for the message's timestamp
    and for [updated_at]. *)
Definition add_message (ctx : ConversationContext) (r : MessageRole)
    (text : string) (now : datetime) : ConversationContext :=
  let appended := messages ctx ++ [mkMessage r text now] in
  let kept :=
    if (MAX_MESSAGES <? length appended)%nat
    then last_n MAX_MESSAGES appended
    else appended in
  {| session_id := session_id ctx; messages := kept;
     selected_vehicle := selected_vehicle ctx;
     last_search_results := last_search_results ctx;
     last_action := last_action ctx;
     created_at := created_at ctx; updated_at := now |}.

Definition add_user_message ctx text now := add_message ctx USER text now.
Definition add_assistant_message ctx text now :=
  add_message ctx ASSISTANT text now.

(** One append request: role, text and the time it happens. *)
Definition Append : Type := MessageRole * string * datetime.

Definition message_of (a : Append) : Message :=
  let '(r, text, now) := a in mkMessage r text now.

(** A sequence of [add_message] calls on one context. *)
Definition add_messages (ctx : ConversationContext) (appends : list Append)
  : ConversationContext :=
  fold_left (fun c a => let '(r, text, now) := a in add_message c r text now)
            appends ctx.

Inductive AgentAction :=
| SEARCH_CARS | GET_CAR_DETAILS | GET_FINANCING_OPTIONS | GET_KAVAK_INFO
| RESPOND | CLARIFY | OUT_OF_SCOPE.

Inductive MissingField := MAKE | MODEL | YEAR | PRICE_MAX.

Record AgentDecision := mkDecision {
  action : AgentAction;
  make : option string;
  model : option string;
  year : option Z;
  price_max : option Q;
  stock_id : option string;
  down_payment : option Q;
  duration : option Z;
  info_query : option string;
  message : option string;
  missing_information : option (list MissingField);
  reason : option string
}.

(** [AgentDecision(action=a)]: every optional field at its default. *)
Definition decision_of (a : AgentAction) : AgentDecision :=
  {| action := a; make := None; model := None; year := None;
     price_max := None; stock_id := None; down_payment := None;
     duration := None; info_query := None; message := None;
     missing_information := None; reason := None |}.

Definition AgentAction_eqb (a b : AgentAction) : bool :=
  match a, b with
  | SEARCH_CARS, SEARCH_CARS | GET_CAR_DETAILS, GET_CAR_DETAILS
  | GET_FINANCING_OPTIONS, GET_FINANCING_OPTIONS
  | GET_KAVAK_INFO, GET_KAVAK_INFO | RESPOND, RESPOND
  | CLARIFY, CLARIFY | OUT_OF_SCOPE, OUT_OF_SCOPE => true
  | _, _ => false
  end.

(** The [value] of the enumeration member. *)
Definition action_value (a : AgentAction) : string :=
  match a with
  | SEARCH_CARS => "search_cars"
  | GET_CAR_DETAILS => "get_car_details"
  | GET_FINANCING_OPTIONS => "get_financing_options"
  | GET_KAVAK_INFO => "get_kavak_info"
  | RESPOND => "respond"
  | CLARIFY => "clarify"
  | OUT_OF_SCOPE => "out_of_scope"
  end.

End Core.

(** ** Library facilities the code calls but does not define *)

(** What pydantic reports for one rejected field of [VehicleSearchParams]. *)
Inductive ValidationIssue :=
| BlankText (field : string)       (* "No puede estar vacío" *)
| BelowMinimum (field : string)    (* a [ge=] bound is violated *)
| YearInFuture.                    (* "No puede ser mayor a <year>" *)

Class Externals := {
(** [datetime.now().year] *)
current_year : Z;
(** [str(e)] of a pydantic [ValidationError] with these issues *)
validation_error_str : list ValidationIssue -> string;
(** [difflib.SequenceMatcher(None, a, b).ratio()] *)
ratio : string -> string -> Q;
(** [get_kavak_info()]: the text of the information source, or the text
    of the exception it raises *)
kavak_info : string + string;
(** the format specification [:,.0f] applied to a price *)
format_price : Q -> string
}.

(** ** The catalogue (src/domain/catalog, src/tools/catalog/inventory.py) *)

Module Catalog.

(** The exception classes of exceptions.py. *)
Inductive ExceptionClass :=
| InventoryError
| CatalogNotFoundError
| CatalogLoadError
| InvalidSearchParametersError.

(** A raised exception: its class and its message, [str(e)]. *)
Record InventoryException := raise {
  exception_class : ExceptionClass;
  exception_str : string
}.

(** [issubclass(a, b)]: the three specific classes derive from
    [InventoryError]. *)
Definition issubclass (a b : ExceptionClass) : bool :=
  match b, a with
  | InventoryError, _ => true
  | CatalogNotFoundError, CatalogNotFoundError => true
  | CatalogLoadError, CatalogLoadError => true
  | InvalidSearchParametersError, InvalidSearchParametersError => true
  | _, _ => false
  end.

(** [isinstance(e, c)], what an [except c] clause tests. *)
Definition isinstance (e : InventoryException) (c : ExceptionClass) : bool :=
  issubclass (exception_class e) c.

(** A cached catalogue row.  The loader stores [make] and [model]
    stripped and lower-cased. *)
Record VehicleRow := mkRow {
  row_stock_id : Z;
  row_make : string;
  row_model : string;
  row_year : Z;
  row_km : Z;
  row_price : Q;
  row_version : string;
  row_bluetooth : bool;
  row_car_play : bool
}.

Record VehicleSearchResult := mkResult {
  stock_id : Z;
  make : string;
  model : string;
  year : Z;
  km : Z;
  price : Q;
  version : string;
  bluetooth : bool;
  car_play : bool
}.

Record SearchResults := mkSearchResults {
  results : list VehicleSearchResult;
  total_count : Z
}.

(** [VehicleSearchParams] after validation: [make] and [model] stripped. *)
Record VehicleSearchParams := mkParams {
  p_make : option string;
  p_model : option string;
  p_year : option Z;
  p_km : option Z;
  p_price : option Q
}.

Definition make_normalized (p : VehicleSearchParams) : option string :=
  match p_make p with
  | Some s => if PyStr.truthy s then Some (PyStr.lower s) else None
  | None => None
  end.

Definition model_normalized (p : VehicleSearchParams) : option string :=
  match p_model p with
  | Some s => if PyStr.truthy s then Some (PyStr.lower s) else None
  | None => None
  end.

(** [a > b] on prices. *)
Definition Qgtb (a b : Q) : bool := negb (Qle_bool a b).

Section Inventory.
Context `{Externals}.

(** [strip_and_validate_not_empty] followed by [min_length=1]. *)
Definition validate_text (field : string) (value : option string)
  : list ValidationIssue * option string :=
  match value with
  | None => ([], None)
  | Some s =>
      let s' := PyStr.strip s in
      if PyStr.truthy s' then ([], Some s') else ([BlankText field], None)
  end.

(** [ge=1900] followed by [validate_year_not_future]. *)
Definition validate_year (value : option Z) : list ValidationIssue :=
  match value with
  | None => []
  | Some y =>
      if y <? 1900 then [BelowMinimum "year"]
      else if current_year <? y then [YearInFuture] else []
  end.

Definition validate_km (value : option Z) : list ValidationIssue :=
  match value with
  | Some k => if k <? 0 then [BelowMinimum "km"] else []
  | None => []
  end.

Definition validate_price (value : option Q) : list ValidationIssue :=
  match value with
  | Some p => if Qle_bool 0 p then [] else [BelowMinimum "price"]
  | None => []
  end.

(** [VehicleSearchParams(make=..., ...)]: the validated parameters, or
    the issues a [ValidationError] carries. *)
Definition validate (make model : option string) (year km : option Z)
    (price : option Q) : list ValidationIssue + VehicleSearchParams :=
  let '(make_issues, make') := validate_text "make" make in
  let '(model_issues, model') := validate_text "model" model in
  match make_issues ++ model_issues ++ validate_year year
          ++ validate_km km ++ validate_price price with
  | [] => inr (mkParams make' model' year km price)
  | issues => inl issues
  end.

(** The body of the filtering loop: [true] when no [continue] is taken. *)
Definition keeps (params : VehicleSearchParams) (vehicle : VehicleRow) : bool :=
  if match make_normalized params with
     | Some m => PyStr.truthy m && negb (String.eqb (row_make vehicle) m)
     | None => false
     end then false
  else if match model_normalized params with
     | Some m => PyStr.truthy m && negb (String.eqb (row_model vehicle) m)
     | None => false
     end then false
  else if match p_year params with
     | Some y => negb (row_year vehicle =? y)
     | None => false
     end then false
  else if match p_km params with
     | Some k => k <? row_km vehicle
     | None => false
     end then false
  else if match p_price params with
     | Some p => Qgtb (row_price vehicle) p
     | None => false
     end then false
  else true.

(** The conversion of a row into a [VehicleSearchResult]. *)
Definition to_result (vehicle : VehicleRow) : VehicleSearchResult :=
  {| stock_id := row_stock_id vehicle;
     make := PyStr.title (row_make vehicle);
     model := PyStr.title (row_model vehicle);
     year := row_year vehicle;
     km := row_km vehicle;
     price := row_price vehicle;
     version := row_version vehicle;
     bluetooth := row_bluetooth vehicle;
     car_play := row_car_play vehicle |}.

Definition search_vehicles (catalog : list VehicleRow)
    (make model : option string) (year km : option Z) (price : option Q)
  : InventoryException + SearchResults :=
  match validate make model year km price with
  | inl issues =>
      inl (raise InvalidSearchParametersError (validation_error_str issues))
  | inr params =>
      let filtered := List.filter (keeps params) catalog in
      let results := map to_result filtered in
      inr {| results := results; total_count := Z.of_nat (length results) |}
  end.

(** The first row with this stock id, as the lookup loop finds it. *)
Fixpoint find_row (catalog : list VehicleRow) (stock_id_int : Z)
  : option VehicleRow :=
  match catalog with
  | [] => None
  | v :: rest =>
      if row_stock_id v =? stock_id_int then Some v
      else find_row rest stock_id_int
  end.

(** The argument of [get_vehicle_details]: an [int] or a [str]. *)
Definition StockId : Type := Z + string.

(** [f"{stock_id}"] *)
Definition stock_id_text (stock_id : StockId) : string :=
  match stock_id with inl n => PyStr.str_of_int n | inr s => s end.

(** [int(stock_id)] *)
Definition int_of_stock_id (stock_id : StockId) : option Z :=
  match stock_id with inl n => Some n | inr s => PyStr.int_of_str s end.

Definition get_vehicle_details (catalog : list VehicleRow)
    (stock_id : StockId) : InventoryException + VehicleSearchResult :=
  match int_of_stock_id stock_id with
  | None =>
      inl (raise InventoryError
             ("stock_id inválido: '" +:+ stock_id_text stock_id
              +:+ "'. Debe ser un número entero."))
  | Some stock_id_int =>
      match find_row catalog stock_id_int with
      | None =>
          inl (raise InventoryError
                 ("No se encontró el vehículo con stock_id "
                  +:+ PyStr.str_of_int stock_id_int))
      | Some vehicle => inr (to_result vehicle)
      end
  end.

Definition get_available_makes (catalog : list VehicleRow) : list string :=
  PyStr.sorted_set (map (fun v => PyStr.title (row_make v)) catalog).

Definition get_available_models (catalog : list VehicleRow)
    (make : option string) : list string :=
  let all_models :=
    PyStr.sorted_set (map (fun v => PyStr.title (row_model v)) catalog) in
  match make with
  | Some m =>
      if PyStr.truthy m then
        let make_normalized := PyStr.lower (PyStr.strip m) in
        PyStr.sorted_set
          (map (fun v => PyStr.title (row_model v))
               (List.filter
                  (fun v => String.eqb (row_make v) make_normalized)
                  catalog))
      else all_models
  | None => all_models
  end.

Definition get_makes_for_model (catalog : list VehicleRow) (model : string)
  : list string :=
  if negb (PyStr.truthy model) then []
  else
    let model_normalized := PyStr.lower (PyStr.strip model) in
    PyStr.sorted_set
      (map (fun v => PyStr.title (row_make v))
           (List.filter (fun v => String.eqb (row_model v) model_normalized)
                        catalog)).

End Inventory.

End Catalog.

(** ** The in-memory session store (src/adapters/storage/local_adapter.py) *)

Module Storage.
Import Core.

(** A [timedelta], in microseconds. *)
Definition timedelta := Z.

Definition minutes (n : Z) : timedelta := n * 60000000.

(** The adapter: its dictionary and its time to live.  The lock makes
    every method body atomic; each method is one state transition. *)
Record LocalStorageAdapter := mkAdapter {
  _store : gmap string ConversationContext;
  _ttl : timedelta;
  _ttl_minutes : Z
}.

(** [LocalStorageAdapter(ttl_minutes)]; [None] stands for [ValueError]. *)
Definition init (ttl_minutes : Z) : option LocalStorageAdapter :=
  if ttl_minutes <=? 0 then None
  else Some {| _store := ∅; _ttl := minutes ttl_minutes;
               _ttl_minutes := ttl_minutes |}.

Definition with_store (self : LocalStorageAdapter)
    (store : gmap string ConversationContext) : LocalStorageAdapter :=
  {| _store := store; _ttl := _ttl self; _ttl_minutes := _ttl_minutes self |}.

(** [_is_expired]; [now] is the clock read by the call. *)
Definition _is_expired (self : LocalStorageAdapter) (now : datetime)
    (context : ConversationContext) : bool :=
  _ttl self <? now - updated_at context.

(** Every method returns its result with the adapter it leaves behind. *)
Definition get (self : LocalStorageAdapter) (now : datetime) (sid : string)
  : option ConversationContext * LocalStorageAdapter :=
  match _store self !! sid with
  | None => (None, self)
  | Some context =>
      if _is_expired self now context
      then (None, with_store self (base.delete sid (_store self)))
      else (Some context, self)
  end.

(** The two clock reads of the fresh context's fields are taken at [now]. *)
Definition get_or_create (self : LocalStorageAdapter) (now : datetime)
    (sid : string) : ConversationContext * LocalStorageAdapter :=
  match _store self !! sid with
  | Some context =>
      if negb (_is_expired self now context) then (context, self)
      else let context := new_context sid now in
           (context, with_store self (<[sid := context]> (_store self)))
  | None =>
      let context := new_context sid now in
      (context, with_store self (<[sid := context]> (_store self)))
  end.

Definition touch (context : ConversationContext) (now : datetime)
  : ConversationContext :=
  {| session_id := session_id context; messages := messages context;
     selected_vehicle := selected_vehicle context;
     last_search_results := last_search_results context;
     last_action := last_action context;
     created_at := created_at context; updated_at := now |}.

Definition save (self : LocalStorageAdapter) (now : datetime)
    (context : ConversationContext) : LocalStorageAdapter :=
  let context := touch context now in
  with_store self (<[session_id context := context]> (_store self)).

(** [delete]: no clock is read. *)
Definition delete (self : LocalStorageAdapter) (sid : string)
  : bool * LocalStorageAdapter :=
  match _store self !! sid with
  | Some _ => (true, with_store self (base.delete sid (_store self)))
  | None => (false, self)
  end.

(** [exists] is [get] followed by a test for [None]. *)
Definition exists_ (self : LocalStorageAdapter) (now : datetime)
    (sid : string) : bool * LocalStorageAdapter :=
  let '(context, self') := get self now sid in
  (match context with Some _ => true | None => false end, self').

Definition clear_all (self : LocalStorageAdapter) : Z * LocalStorageAdapter :=
  (Z.of_nat (size (_store self)), with_store self ∅).

Definition cleanup_expired (self : LocalStorageAdapter) (now : datetime)
  : Z * LocalStorageAdapter :=
  let expired := filter (fun kv => _is_expired self now kv.2 = true)
                        (_store self) in
  (Z.of_nat (size expired),
   with_store self
     (filter (fun kv => _is_expired self now kv.2 ≠ true) (_store self))).

Definition session_count (self : LocalStorageAdapter) : Z :=
  Z.of_nat (size (_store self)).

End Storage.

(** ** Action results, handlers, router and presenter (src/agent) *)

Module Agent.
Import Core.

Inductive ActionResult :=
| SearchCarsResult (results : Catalog.SearchResults) (decision : AgentDecision)
| GetCarDetailsResult (car : Catalog.VehicleSearchResult)
    (decision : AgentDecision)
| FinancingOptionsResult (price : Q) (decision : AgentDecision)
| KavakInfoResult (info_content query : string) (decision : AgentDecision)
| ResponseResult (message : string) (decision : AgentDecision)
| ClarifyResult (message : string) (missing_fields : list MissingField)
    (decision : AgentDecision)
| OutOfScopeResult (message : string) (reason : option string)
    (decision : AgentDecision)
| ErrorResult (error : string) (decision : AgentDecision).

Record UserReply := mkReply {
  reply_message : string;
  vehicles : list Catalog.VehicleSearchResult;
  success : bool
}.

(** [x or fallback] on an optional string. *)
Definition or_else (x : option string) (fallback : string) : string :=
  match x with
  | Some s => if PyStr.truthy s then s else fallback
  | None => fallback
  end.

(** The string of an optional field that is known to hold one. *)
Definition text (x : option string) : string :=
  match x with Some s => s | None => EmptyString end.

(** A score with its candidate, as [get_close_matches] collects them. *)
Definition Scored : Type := Q * string.

(** [a >= b] on [(score, candidate)] tuples. *)
Definition scored_geb (a b : Scored) : bool :=
  match Qcompare (fst a) (fst b) with
  | Gt => true
  | Lt => false
  | Eq => String.leb (snd b) (snd a)
  end.

(** [sorted(result, reverse=True)] *)
Fixpoint insert_desc (x : Scored) (l : list Scored) : list Scored :=
  match l with
  | [] => [x]
  | y :: l' => if scored_geb x y then x :: l else y :: insert_desc x l'
  end.

Definition sorted_desc (l : list Scored) : list Scored :=
  fold_right insert_desc [] l.

(** A dictionary with string keys that remembers insertion order. *)
Definition Dict : Type := list (string * string).

(** [d[k] = v] *)
Fixpoint dict_set (d : Dict) (k v : string) : Dict :=
  match d with
  | [] => [(k, v)]
  | (k', v') :: d' =>
      if String.eqb k' k then (k', v) :: d' else (k', v') :: dict_set d' k v
  end.

(** [d.get(k)] *)
Fixpoint dict_get (d : Dict) (k : string) : option string :=
  match d with
  | [] => None
  | (k', v') :: d' => if String.eqb k' k then Some v' else dict_get d' k
  end.

Definition dict_keys (d : Dict) : list string := map fst d.

Section Handlers.
Context `{Externals}.

(** [difflib.get_close_matches]: the candidates that score at least
    [cutoff] against [word], the [n] best of them, best first.  The
    two quick ratios difflib tests first are upper bounds of [ratio]. *)
Definition get_close_matches (word : string) (possibilities : list string)
    (n : nat) (cutoff : Q) : list string :=
  let result :=
    map (fun x => (ratio x word, x))
        (List.filter (fun x => Qle_bool cutoff (ratio x word))
                     possibilities) in
  map snd (firstn n (sorted_desc result)).

(** The dictionary [{opt.lower(): opt for opt in options}]. *)
Definition options_map (options : list string) : Dict :=
  fold_left (fun d opt => dict_set d (PyStr.lower opt) opt) options [].

(** [_suggest_matches].  Every match is a key of the dictionary, so the
    subscription [options_map[m]] always finds its entry. *)
Definition _suggest_matches (value : string) (options : list string)
  : list string :=
  if negb (PyStr.truthy value) then []
  else
    let d := options_map options in
    let matches :=
      get_close_matches (PyStr.lower (PyStr.strip value))
                        (dict_keys d) 3 (8 # 10)%Q in
    omap (dict_get d) matches.

(** The text of [', '.join(suggestions)] in the zero-result branch. *)
Definition suggestion_parts (make_suggestions model_suggestions : list string)
  : list string :=
  match make_suggestions with
  | m :: _ => ["marca '" +:+ m +:+ "'"]
  | [] => []
  end
  ++ match model_suggestions with
     | m :: _ => ["modelo '" +:+ m +:+ "'"]
     | [] => []
     end.

(** The first test of [handle_search_cars]: the makes of a model given
    without a make, when there are several. *)
Definition ambiguous_makes (catalog : list Catalog.VehicleRow)
    (decision : AgentDecision) : option (list string) :=
  if PyStr.truthy_opt (model decision)
     && negb (PyStr.truthy_opt (make decision))
  then
    let makes_for_model :=
      Catalog.get_makes_for_model catalog (text (model decision)) in
    if (1 <? length makes_for_model)%nat then Some makes_for_model
    else None
  else None.

(** The local [make_suggestions] of the zero-result branch. *)
Definition make_suggestions (catalog : list Catalog.VehicleRow)
    (decision : AgentDecision) : list string :=
  if PyStr.truthy_opt (make decision)
  then _suggest_matches (text (make decision))
                        (Catalog.get_available_makes catalog)
  else [].

(** The local [available_models]: restricted to the decision's make
    when the catalogue has that make. *)
Definition available_models (catalog : list Catalog.VehicleRow)
    (decision : AgentDecision) : list string :=
  Catalog.get_available_models catalog
    (if PyStr.truthy_opt (make decision)
        && bool_decide
             (PyStr.lower (text (make decision))
              ∈ map PyStr.lower (Catalog.get_available_makes catalog))
     then make decision else None).

(** The local [model_suggestions]. *)
Definition model_suggestions (catalog : list Catalog.VehicleRow)
    (decision : AgentDecision) : list string :=
  if PyStr.truthy_opt (model decision)
  then _suggest_matches (text (model decision))
                        (available_models catalog decision)
  else [].

Definition handle_search_cars (catalog : list Catalog.VehicleRow)
    (decision : AgentDecision) : ActionResult :=
  match ambiguous_makes catalog decision with
  | Some makes_for_model =>
      ClarifyResult
        ("Encontré el modelo " +:+ text (model decision)
         +:+ " en varias marcas: " +:+ PyStr.join ", " makes_for_model
         +:+ ". ¿Cuál prefieres?")
        [MAKE] decision
  | None =>
      match Catalog.search_vehicles catalog (make decision) (model decision)
              (year decision) None (price_max decision) with
      | inl e => ErrorResult (Catalog.exception_str e) decision
      | inr results =>
          if (Catalog.total_count results =? 0)
             && (PyStr.truthy_opt (make decision)
                 || PyStr.truthy_opt (model decision))
          then
            match suggestion_parts (make_suggestions catalog decision)
                                   (model_suggestions catalog decision) with
            | [] => SearchCarsResult results decision
            | suggestions =>
                ClarifyResult
                  ("No encontré coincidencias exactas. ¿Te referías a "
                   +:+ PyStr.join ", " suggestions +:+ "?")
                  [] decision
            end
          else SearchCarsResult results decision
      end
  end.

(** The argument the handlers give to [get_vehicle_details]: the
    decision's [stock_id], a [str]. *)
Definition details_of (catalog : list Catalog.VehicleRow)
    (decision : AgentDecision) :=
  Catalog.get_vehicle_details catalog (inr (text (stock_id decision))).

Definition handle_get_car_details (catalog : list Catalog.VehicleRow)
    (decision : AgentDecision) : ActionResult :=
  if negb (PyStr.truthy_opt (stock_id decision)) then
    ErrorResult "Se requiere el ID del auto para consultar detalles."
                decision
  else
    match details_of catalog decision with
    | inr car => GetCarDetailsResult car decision
    | inl e => ErrorResult (Catalog.exception_str e) decision
    end.

Definition handle_get_kavak_info (decision : AgentDecision) : ActionResult :=
  match kavak_info with
  | inr info_content =>
      KavakInfoResult info_content
        (or_else (info_query decision) "información general") decision
  | inl e => ErrorResult e decision
  end.

Definition handle_get_financing_options (catalog : list Catalog.VehicleRow)
    (decision : AgentDecision) : ActionResult :=
  if negb (PyStr.truthy_opt (stock_id decision)) then
    ErrorResult "Se requiere el ID del auto para consultar financiamiento."
                decision
  else
    match details_of catalog decision with
    | inr car => FinancingOptionsResult (Catalog.price car) decision
    | inl e => ErrorResult (Catalog.exception_str e) decision
    end.

Definition handle_respond (decision : AgentDecision) : ActionResult :=
  if negb (PyStr.truthy_opt (message decision)) then
    ErrorResult "La acción RESPOND requiere un mensaje." decision
  else ResponseResult (text (message decision)) decision.

Definition handle_clarify (decision : AgentDecision) : ActionResult :=
  ClarifyResult
    (or_else (message decision) "¿Podrías proporcionar más información?")
    (match missing_information decision with
     | Some fields => fields
     | None => []
     end)
    decision.

Definition handle_out_of_scope (decision : AgentDecision) : ActionResult :=
  OutOfScopeResult
    (or_else (message decision) "Lo siento, eso está fuera de mi alcance.")
    (reason decision) decision.

(** [route_decision]: the table [_ACTION_HANDLERS] has an entry for
    each of the seven actions. *)
Definition route_decision (catalog : list Catalog.VehicleRow)
    (decision : AgentDecision) : ActionResult :=
  match action decision with
  | SEARCH_CARS => handle_search_cars catalog decision
  | GET_CAR_DETAILS => handle_get_car_details catalog decision
  | GET_FINANCING_OPTIONS => handle_get_financing_options catalog decision
  | GET_KAVAK_INFO => handle_get_kavak_info decision
  | RESPOND => handle_respond decision
  | CLARIFY => handle_clarify decision
  | OUT_OF_SCOPE => handle_out_of_scope decision
  end.

(** *** The presenter (src/agent/presenter.py) *)

Definition _DEFAULT_ERROR_MESSAGE : string :=
  "Lo siento, ocurrió un problema al procesar tu solicitud. "
  +:+ "Por favor, intenta de nuevo.".

(** A record written with [logger.error]. *)
Record LogRecord := mkLog {
  log_event : string;
  log_action : string;
  log_error : string;
  log_decision : AgentDecision
}.

Definition _render_search_cars (results : Catalog.SearchResults)
    (decision : AgentDecision) : UserReply :=
  let count := Catalog.total_count results in
  let message :=
    if count =? 0 then
      let criteria_parts :=
        (if PyStr.truthy_opt (make decision) then [text (make decision)]
         else [])
        ++ (if PyStr.truthy_opt (model decision)
            then [text (model decision)] else []) in
      let criteria_text := PyStr.join " " criteria_parts in
      if PyStr.truthy criteria_text then
        "No encontré " +:+ criteria_text +:+ " con esos criterios. "
        +:+ "¿Te gustaría buscar algo diferente?"
      else
        "No encontré vehículos con esos criterios. "
        +:+ "¿Te gustaría buscar algo diferente?"
    else if count =? 1 then
      "¡Encontré 1 vehículo que coincide con tu búsqueda!"
    else
      "¡Encontré " +:+ PyStr.str_of_int count
      +:+ " vehículos que coinciden con tu búsqueda!" in
  mkReply message (Catalog.results results) true.

Definition _render_get_car_details (car : Catalog.VehicleSearchResult)
  : UserReply :=
  mkReply
    ("Detalles del vehículo " +:+ PyStr.str_of_int (Catalog.stock_id car)
     +:+ ": " +:+ Catalog.make car +:+ " " +:+ Catalog.model car +:+ " "
     +:+ PyStr.str_of_int (Catalog.year car))
    [] true.

Definition _render_financing_options (price : Q) : UserReply :=
  mkReply
    ("Opciones de financiamiento para vehículo con precio $"
     +:+ format_price price +:+ " MXN")
    [] true.

Definition _render_kavak_info (query : string) : UserReply :=
  mkReply ("Información sobre Kavak: " +:+ query) [] true.

(** [_render_error]: the error goes to the log, the reply is fixed. *)
Definition _render_error (error : string) (decision : AgentDecision)
  : UserReply * list LogRecord :=
  (mkReply _DEFAULT_ERROR_MESSAGE [] false,
   [mkLog "Error en procesamiento de acción"
          (action_value (action decision)) error decision]).

(** [render_reply]: the reply, and what the call logs. *)
Definition render_reply (result : ActionResult) : UserReply * list LogRecord :=
  match result with
  | SearchCarsResult results decision =>
      (_render_search_cars results decision, [])
  | GetCarDetailsResult car _ => (_render_get_car_details car, [])
  | FinancingOptionsResult price _ => (_render_financing_options price, [])
  | KavakInfoResult _ query _ => (_render_kavak_info query, [])
  | ResponseResult message _ => (mkReply message [] true, [])
  | ClarifyResult message _ _ => (mkReply message [] true, [])
  | OutOfScopeResult message _ _ => (mkReply message [] true, [])
  | ErrorResult error decision => _render_error error decision
  end.

End Handlers.

End Agent.

(** ** The clarification guard (src/services/message_processor.py) *)

Module Processor.
Import Core.

(** The phrases that refer to a vehicle mentioned earlier. *)
Definition reference_phrases : list string :=
  [ "mas barato"; "más barato"; "el primero"; "la primera"; "el rojo";
    "la roja"; "ese"; "ese auto"; "ese coche"; "me interesa el";
    "me interesa la" ].

Definition needs_reference (text : string) : bool :=
  existsb (fun phrase => PyStr.contains phrase text) reference_phrases.

(** [bool(ctx.last_search_results or ctx.selected_vehicle)] *)
Definition has_context (ctx : ConversationContext) : bool :=
  match last_search_results ctx with
  | _ :: _ => true
  | [] => match selected_vehicle ctx with Some _ => true | None => false end
  end.

Definition nonempty {A} (l : list A) : bool :=
  match l with [] => false | _ :: _ => true end.

Definition clarify_with (text : string) (missing : list MissingField)
  : AgentDecision :=
  {| action := CLARIFY; make := None; model := None; year := None;
     price_max := None; stock_id := None; down_payment := None;
     duration := None; info_query := None; message := Some text;
     missing_information := Some missing; reason := None |}.

Definition _apply_clarify_guards (user_text : string)
    (decision : AgentDecision) (ctx : ConversationContext) : AgentDecision :=
  let text := PyStr.lower user_text in
  if AgentAction_eqb (action decision) GET_FINANCING_OPTIONS
     && negb (PyStr.truthy_opt (stock_id decision))
     && negb (has_context ctx)
  then
    clarify_with
      ("¿Qué vehículo te interesa financiar? "
       +:+ "Puedes decirme la marca y el modelo.") []
  else if AgentAction_eqb (action decision) GET_FINANCING_OPTIONS
     && negb (PyStr.truthy_opt (stock_id decision))
     && nonempty (last_search_results ctx)
     && negb (match selected_vehicle ctx with Some _ => true | None => false end)
  then
    clarify_with
      ("¿Cuál de los vehículos encontrados quieres financiar? "
       +:+ "Indícame el número en la lista o dime marca y modelo.") []
  else if needs_reference text && negb (has_context ctx) then
    clarify_with
      ("¿Te refieres a algún vehículo de una búsqueda previa? "
       +:+ "Si no, dime qué marca, modelo o presupuesto tienes en mente.")
      [MAKE; MODEL]
  else decision.

End Processor.

(** ** Sample data for the examples *)

Module Sample.
Import Core.

Fixpoint common_prefix (a b : string) : nat :=
  match a, b with
  | String x a', String y b' =>
      if Ascii.eqb x y then S (common_prefix a' b') else 0%nat
  | _, _ => 0%nat
  end.

(** A stand-in for difflib's ratio: twice the length of the common prefix
    over the total length. *)
Definition prefix_ratio (a b : string) : Q :=
  match (String.length a + String.length b)%nat with
  | O => 1%Q
  | S n => (Z.of_nat (2 * common_prefix a b) # Pos.of_succ_nat n)%Q
  end.

Definition externals : Externals := {|
  current_year := 2026;
  validation_error_str := fun _ => "validation error for VehicleSearchParams";
  ratio := prefix_ratio;
  kavak_info := inr "Kavak es una plataforma de autos seminuevos.";
  format_price := fun p => PyStr.str_of_int (Qnum p / Zpos (Qden p))
|}.

Definition catalog : list Catalog.VehicleRow := [
  Catalog.mkRow 101 "toyota" "corolla" 2020 30000 (250000 # 1) "le" true false;
  Catalog.mkRow 102 "honda" "civic" 2019 45000 (230000 # 1) "ex" true true;
  Catalog.mkRow 103 "toyota" "yaris" 2021 10000 (210000 # 1) "s" false false;
  Catalog.mkRow 104 "suzuki" "swift" 2018 60000 (150000 # 1) "gl" false false;
  Catalog.mkRow 105 "maruti" "swift" 2017 80000 (140000 # 1) "vxi" false false
].

(** [AgentDecision(action=SEARCH_CARS, make=..., model=..., price_max=...)] *)
Definition search (make model : option string) (price_max : option Q)
  : AgentDecision :=
  {| action := SEARCH_CARS; make := make; model := model; year := None;
     price_max := price_max; stock_id := None; down_payment := None;
     duration := None; info_query := None; message := None;
     missing_information := None; reason := None |}.

(** [AgentDecision(action=GET_FINANCING_OPTIONS, stock_id=...)] *)
Definition financing (stock_id : option string) : AgentDecision :=
  {| action := GET_FINANCING_OPTIONS; make := None; model := None;
     year := None; price_max := None; stock_id := stock_id;
     down_payment := None; duration := None; info_query := None;
     message := None; missing_information := None; reason := None |}.

Definition empty_context : ConversationContext :=
  new_context "test-session" 0.

(** An adapter with a ten-minute time to live that holds one session,
    last updated at time 0. *)
Definition adapter : Storage.LocalStorageAdapter :=
  {| Storage._store := {[ "s1" := new_context "s1" 0 ]};
     Storage._ttl := Storage.minutes 10;
     Storage._ttl_minutes := 10 |}.

(** Eleven minutes later. *)
Definition later : datetime := Storage.minutes 11.

(** Twenty-one user messages, one per second. *)
Definition appends21 : list Append :=
  map (fun i => (USER, "mensaje " +:+ PyStr.str_of_int (Z.of_nat i),
                 Z.of_nat i * 1000000))
      (seq 1 21).

End Sample.

(** ** The vocabulary of the search properties *)

Module SearchSpec.
Import Catalog.

(** Equality of two texts up to letter case. *)
Definition same_text_ci (a b : string) : bool :=
  String.eqb (PyStr.lower a) (PyStr.lower b).

(** A row satisfies the criteria when every criterion that is present
    holds: make and model equal up to case, the year equal, odometer and
    price at most the ceiling.  [read] is how a text criterion is read
    before it is compared: as it is, or trimmed. *)
Definition satisfies (read : string -> string) (make model : option string)
    (year km : option Z) (price : option Q) (v : VehicleRow) : bool :=
  match make with
  | Some m => same_text_ci (row_make v) (read m)
  | None => true
  end
  && match model with
     | Some m => same_text_ci (row_model v) (read m)
     | None => true
     end
  && match year with Some y => row_year v =? y | None => true end
  && match km with Some k => row_km v <=? k | None => true end
  && match price with Some p => Qle_bool (row_price v) p | None => true end.

(** The result the search is expected to give: the satisfying rows in
    catalogue order, with their count. *)
Definition expected (read : string -> string) (catalog : list VehicleRow)
    (make model : option string) (year km : option Z) (price : option Q)
  : SearchResults :=
  let found :=
    map to_result
        (List.filter (satisfies read make model year km price) catalog) in
  {| results := found; total_count := Z.of_nat (length found) |}.

Definition text_valid (value : option string) : bool :=
  match value with
  | Some s => PyStr.truthy (PyStr.strip s)
  | None => true
  end.

(** The criteria [VehicleSearchParams] accepts: no blank text, a year
    from 1900 to the current one, no negative odometer or price. *)
Definition criteria_valid `{Externals} (make model : option string)
    (year km : option Z) (price : option Q) : bool :=
  text_valid make && text_valid model
  && match year with
     | Some y => (1900 <=? y) && (y <=? current_year)
     | None => true
     end
  && match km with Some k => 0 <=? k | None => true end
  && match price with Some p => Qle_bool 0 p | None => true end.

(** What the loader guarantees of every cached row: make and model are
    stored lower-cased. *)
Definition normalized_catalog (catalog : list VehicleRow) : Prop :=
  Forall (fun v => PyStr.lower (row_make v) = row_make v
                   /\ PyStr.lower (row_model v) = row_model v) catalog.

End SearchSpec.

(** ** The messages of the lookup's two failures *)

Module LookupText.
Import Catalog.

Definition invalid_id_message (stock_id : StockId) : string :=
  "stock_id inválido: '" +:+ stock_id_text stock_id
  +:+ "'. Debe ser un número entero.".

Definition not_found_message (n : Z) : string :=
  "No se encontró el vehículo con stock_id " +:+ PyStr.str_of_int n.

End LookupText.

(** ** The questions of the clarification guard *)

Module GuardText.

Definition financing_question : string :=
  "¿Qué vehículo te interesa financiar? "
  +:+ "Puedes decirme la marca y el modelo.".

Definition reference_question : string :=
  "¿Te refieres a algún vehículo de una búsqueda previa? "
  +:+ "Si no, dime qué marca, modelo o presupuesto tienes en mente.".

End GuardText.

(** ** The vocabulary of the router properties *)

Module SuggestSpec.
Import Core Agent.

(** One step of the dictionary comprehension of [_suggest_matches]. *)
Definition add_option (d : Dict) (opt : string) : Dict :=
  dict_set d (PyStr.lower opt) opt.

(** A candidate is close enough to a value: similarity at least 0.8
    between their lower-cased forms, the value trimmed. *)
Definition close_enough `{Externals} (value opt : string) : Prop :=
  Qle_bool (8 # 10)%Q
           (ratio (PyStr.lower opt) (PyStr.lower (PyStr.strip value)))
  = true.

(** The two questions [handle_search_cars] can ask. *)
Definition ambiguity_question (decision : AgentDecision)
    (makes_for_model : list string) : string :=
  "Encontré el modelo " +:+ text (model decision)
  +:+ " en varias marcas: " +:+ PyStr.join ", " makes_for_model
  +:+ ". ¿Cuál prefieres?".

Definition suggestion_question (suggestions : list string) : string :=
  "No encontré coincidencias exactas. ¿Te referías a "
  +:+ PyStr.join ", " suggestions +:+ "?".

End SuggestSpec.

(** ** Selection and search results of a context (src/core/models.py) *)

Module Selection.
Import Core.

(** [select_vehicle] *)
Definition select_vehicle (ctx : ConversationContext)
    (vehicle : SelectedVehicle) (now : datetime) : ConversationContext :=
  {| session_id := session_id ctx; messages := messages ctx;
     selected_vehicle := Some vehicle;
     last_search_results := last_search_results ctx;
     last_action := last_action ctx;
     created_at := created_at ctx; updated_at := now |}.

(** The loop of [select_vehicle_by_stock_id]: the first vehicle of the
    list with this stock id. *)
Fixpoint find_vehicle (vehicles : list SelectedVehicle) (stock_id : Z)
  : option SelectedVehicle :=
  match vehicles with
  | [] => None
  | vehicle :: rest =>
      if sv_stock_id vehicle =? stock_id then Some vehicle
      else find_vehicle rest stock_id
  end.

(** [select_vehicle_by_stock_id]: the answer and the context it leaves. *)
Definition select_vehicle_by_stock_id (ctx : ConversationContext)
    (stock_id : Z) (now : datetime) : bool * ConversationContext :=
  match find_vehicle (last_search_results ctx) stock_id with
  | Some vehicle => (true, select_vehicle ctx vehicle now)
  | None => (false, ctx)
  end.

(** [set_search_results] *)
Definition set_search_results (ctx : ConversationContext)
    (vehicles : list SelectedVehicle) (now : datetime) : ConversationContext :=
  {| session_id := session_id ctx; messages := messages ctx;
     selected_vehicle := selected_vehicle ctx;
     last_search_results := vehicles;
     last_action := last_action ctx;
     created_at := created_at ctx; updated_at := now |}.

(** [clear_selection] *)
Definition clear_selection (ctx : ConversationContext) (now : datetime)
  : ConversationContext :=
  {| session_id := session_id ctx; messages := messages ctx;
     selected_vehicle := None;
     last_search_results := last_search_results ctx;
     last_action := last_action ctx;
     created_at := created_at ctx; updated_at := now |}.

(** The assignment [ctx.last_action = action]. *)
Definition set_last_action (ctx : ConversationContext) (action : string)
  : ConversationContext :=
  {| session_id := session_id ctx; messages := messages ctx;
     selected_vehicle := selected_vehicle ctx;
     last_search_results := last_search_results ctx;
     last_action := Some action;
     created_at := created_at ctx; updated_at := updated_at ctx |}.

End Selection.

(** ** The conversation service (src/agent/services/conversation.py) *)

(** The store holds the context objects themselves: a context that a
    method mutates after reading it from the store is changed in the store
    as well.  The model writes such a context back under the key it was
    read from.  Distinct keys hold distinct objects. *)

Module Conversation.
Import Core Selection Storage Agent.

(** [_to_selected_vehicles] *)
Definition _to_selected_vehicles (vehicles : list Catalog.VehicleSearchResult)
  : list SelectedVehicle :=
  map (fun v => {| sv_stock_id := Catalog.stock_id v;
                   sv_make := Catalog.make v;
                   sv_model := Catalog.model v;
                   sv_year := Catalog.year v;
                   sv_price := Catalog.price v;
                   sv_km := Catalog.km v |})
      vehicles.

(** [start_turn]: [now] is the clock of [get_or_create], [now'] the clock
    of [add_user_message]. *)
Definition start_turn (store : LocalStorageAdapter) (now now' : datetime)
    (sid user_message : string) : ConversationContext * LocalStorageAdapter :=
  let '(ctx, store) := get_or_create store now sid in
  let ctx := add_user_message ctx user_message now' in
  (ctx, with_store store (<[sid := ctx]> (_store store))).

(** [update_context] on the context object: [now] is the clock of
    [set_search_results], [now'] the clock of [add_assistant_message]. *)
Definition update_context (ctx : ConversationContext) (reply : UserReply)
    (action : string) (now now' : datetime) : ConversationContext :=
  let ctx :=
    match vehicles reply with
    | _ :: _ => set_search_results ctx (_to_selected_vehicles (vehicles reply))
                                   now
    | [] => ctx
    end in
  let ctx := set_last_action ctx action in
  add_assistant_message ctx (reply_message reply) now'.

(** [persist_context] *)
Definition persist_context (store : LocalStorageAdapter) (now : datetime)
    (ctx : ConversationContext) : LocalStorageAdapter :=
  save store now ctx.

(** [get_context] *)
Definition get_context (store : LocalStorageAdapter) (now : datetime)
    (sid : string) : option ConversationContext * LocalStorageAdapter :=
  get store now sid.

(** [select_vehicle]: [now] is the clock of [get], [now'] of the
    selection and [now''] of [save]. *)
Definition select_vehicle (store : LocalStorageAdapter)
    (now now' now'' : datetime) (sid : string) (stock_id : Z)
  : option SelectedVehicle * LocalStorageAdapter :=
  match get store now sid with
  | (None, store) => (None, store)
  | (Some ctx, store) =>
      match select_vehicle_by_stock_id ctx stock_id now' with
      | (true, ctx) =>
          (* the object read under [sid] is the one [save] stamps and files
             under its own [session_id] *)
          let stamped := touch ctx now'' in
          (selected_vehicle ctx,
           save (with_store store (<[sid := stamped]> (_store store)))
                now'' ctx)
      | (false, _) => (None, store)
      end
  end.

(** [get_selected_vehicle] *)
Definition get_selected_vehicle (store : LocalStorageAdapter) (now : datetime)
    (sid : string) : option SelectedVehicle * LocalStorageAdapter :=
  match get store now sid with
  | (None, store) => (None, store)
  | (Some ctx, store) => (selected_vehicle ctx, store)
  end.

(** [clear_session] *)
Definition clear_session (store : LocalStorageAdapter) (sid : string)
  : bool * LocalStorageAdapter :=
  delete store sid.

End Conversation.

(** ** The question of the guard's second rule *)

Module TurnText.

Definition listed_vehicle_question : string :=
  "¿Cuál de los vehículos encontrados quieres financiar? "
  +:+ "Indícame el número en la lista o dime marca y modelo.".

End TurnText.

(** ** More vocabulary for the catalogue properties *)

Module CatalogVocabulary.

(** A list of texts in ascending order. *)
Definition ascending (l : list string) : Prop :=
  Sorted (fun a b => String.leb a b = true) l.


End CatalogVocabulary.

(** ** The vocabulary of the handler properties *)

Module HandlerVocabulary.
Import Core Agent.

(** The decision an action result refers back to. *)
Definition result_decision (result : ActionResult) : AgentDecision :=
  match result with
  | SearchCarsResult _ d | GetCarDetailsResult _ d
  | FinancingOptionsResult _ d | KavakInfoResult _ _ d
  | ResponseResult _ d | ClarifyResult _ _ d | OutOfScopeResult _ _ d
  | ErrorResult _ d => d
  end.

(** The kinds of result each action can be answered with. *)
Definition answers (a : AgentAction) (result : ActionResult) : bool :=
  match a, result with
  | SEARCH_CARS, (SearchCarsResult _ _ | ClarifyResult _ _ _ | ErrorResult _ _)
  | GET_CAR_DETAILS, (GetCarDetailsResult _ _ | ErrorResult _ _)
  | GET_FINANCING_OPTIONS, (FinancingOptionsResult _ _ | ErrorResult _ _)
  | GET_KAVAK_INFO, (KavakInfoResult _ _ _ | ErrorResult _ _)
  | RESPOND, (ResponseResult _ _ | ErrorResult _ _)
  | CLARIFY, ClarifyResult _ _ _
  | OUT_OF_SCOPE, OutOfScopeResult _ _ _ => true
  | _, _ => false
  end.

Definition details_id_required : string :=
  "Se requiere el ID del auto para consultar detalles.".

Definition financing_id_required : string :=
  "Se requiere el ID del auto para consultar financiamiento.".

End HandlerVocabulary.

(** ** The order of the suggestions *)

Module SuggestOrderSpec.
Import Core Agent.

(** Scored candidates from the best to the worst. *)
Definition best_first (l : list Scored) : Prop :=
  Sorted (fun a b => scored_geb a b = true) l.

(** Suggestions in order of decreasing similarity to a word. *)
Definition closest_first `{Externals} (word : string) (l : list string) : Prop :=
  Sorted (fun a b => (ratio (PyStr.lower b) word
                      <= ratio (PyStr.lower a) word)%Q) l.

End SuggestOrderSpec.

(** * Properties *)

(** ** Python strings *)

Module PyStrFacts.
Import PyStr.

Lemma lower_char_idem c : lower_char (lower_char c) = lower_char c.
Proof. destruct c as [[] [] [] [] [] [] [] []]; reflexivity. Qed.

Lemma lower_upper_char c : lower_char (upper_char c) = lower_char c.
Proof. destruct c as [[] [] [] [] [] [] [] []]; reflexivity. Qed.

Lemma lower_idem s : lower (lower s) = lower s.
Proof.
  induction s as [|c s IH]; simpl; [reflexivity|].
  by rewrite lower_char_idem, IH.
Qed.

Lemma lower_title_from b s : lower (title_from b s) = lower s.
Proof.
  revert b. induction s as [|c s IH]; intros b; simpl; [reflexivity|].
  rewrite IH. destruct b; by rewrite ?lower_char_idem, ?lower_upper_char.
Qed.

Lemma lower_title s : lower (title s) = lower s.
Proof. apply lower_title_from. Qed.

(** On lower-case text [title] loses nothing. *)
Lemma title_inj_lower a b :
  lower a = a -> lower b = b -> title a = title b -> a = b.
Proof.
  intros Ha Hb Ht.
  rewrite <- Ha, <- Hb, <- (lower_title a), <- (lower_title b).
  by rewrite Ht.
Qed.

Lemma truthy_opt_Some o :
  truthy_opt o = true -> exists s, o = Some s /\ truthy s = true.
Proof. destruct o as [s|]; simpl; [eauto | discriminate]. Qed.

Lemma truthy_lower s : truthy (lower s) = truthy s.
Proof. by destruct s. Qed.

Lemma length_insert_sorted x l : length (insert_sorted x l) = S (length l).
Proof.
  induction l as [|y l IH]; simpl; [reflexivity|].
  destruct (String.leb x y); simpl; [reflexivity | by rewrite IH].
Qed.

Lemma length_sorted l : length (sorted l) = length l.
Proof.
  induction l as [|x l IH]; simpl; [reflexivity|].
  by rewrite length_insert_sorted, IH.
Qed.

Lemma in_insert_sorted x y l : In y (insert_sorted x l) <-> y = x \/ In y l.
Proof.
  induction l as [|z l IH]; simpl; [intuition|].
  destruct (String.leb x z); simpl; [intuition|]. rewrite IH. intuition.
Qed.

Lemma in_sorted y l : In y (sorted l) <-> In y l.
Proof.
  induction l as [|x l IH]; simpl; [reflexivity|].
  rewrite in_insert_sorted, IH. intuition.
Qed.

Lemma in_sorted_set y l : In y (sorted_set l) <-> In y l.
Proof. unfold sorted_set. by rewrite in_sorted, nodup_In. Qed.

End PyStrFacts.

(** ** The message history *)

Module CoreFacts.
Import Core.

Lemma last_n_short {A} n (xs : list A) :
  (length xs <= n)%nat -> last_n n xs = xs.
Proof.
  intros Hle. unfold last_n.
  by replace (length xs - n)%nat with 0%nat by lia.
Qed.

Lemma length_last_n {A} n (xs : list A) :
  length (last_n n xs) = Nat.min n (length xs).
Proof. unfold last_n. rewrite length_skipn. lia. Qed.

Lemma last_n_snoc {A} n (xs : list A) x :
  last_n n (last_n n xs ++ [x]) = last_n n (xs ++ [x]).
Proof.
  unfold last_n.
  replace (skipn (length xs - n) xs ++ [x])
    with (skipn (length xs - n) (xs ++ [x])).
  2:{ rewrite skipn_app.
      by replace (length xs - n - length xs)%nat with 0%nat by lia. }
  rewrite skipn_skipn, length_skipn, !length_app. simpl.
  f_equal. lia.
Qed.

Lemma messages_add_message ctx r text now :
  messages (add_message ctx r text now)
  = last_n MAX_MESSAGES (messages ctx ++ [mkMessage r text now]).
Proof.
  unfold add_message. simpl.
  destruct (MAX_MESSAGES <? _)%nat eqn:E; [reflexivity|].
  apply Nat.ltb_ge in E. by rewrite last_n_short.
Qed.

Lemma add_messages_snoc ctx appends a :
  add_messages ctx (appends ++ [a])
  = (let '(r, text, now) := a in
     add_message (add_messages ctx appends) r text now).
Proof. unfold add_messages. by rewrite fold_left_app. Qed.

Lemma messages_add_messages ctx appends :
  appends <> [] \/ (length (messages ctx) <= MAX_MESSAGES)%nat ->
  messages (add_messages ctx appends)
  = last_n MAX_MESSAGES (messages ctx ++ map message_of appends).
Proof.
  induction appends as [|a appends IH] using rev_ind; intros Hor.
  - destruct Hor as [Hne|Hle]; [done|]. simpl. rewrite app_nil_r.
    by rewrite last_n_short.
  - rewrite add_messages_snoc. destruct a as [[r text] now].
    rewrite messages_add_message, map_app, app_assoc. simpl.
    destruct appends as [|b appends].
    + simpl. by rewrite app_nil_r.
    + rewrite IH by (left; done). apply last_n_snoc.
Qed.

(** C7.  After any sequence of appends (at least one append, or a
    context that starts within the bound) the stored history has at most
    20 messages and is the most recent 20 of the old history followed by
    the appended messages, in order; 21 appends on an empty history
    leave exactly 20. *)
Theorem message_history_bounded ctx appends :
  appends <> [] \/ (length (messages ctx) <= MAX_MESSAGES)%nat ->
  let stored := messages (add_messages ctx appends) in
  (length stored <= 20)%nat
  /\ stored = last_n 20 (messages ctx ++ map message_of appends)
  /\ (messages ctx = [] -> length appends = 21%nat ->
      length stored = 20%nat).
Proof.
  intros Hor stored. unfold stored. rewrite (messages_add_messages _ _ Hor).
  change MAX_MESSAGES with 20%nat.
  split; [|split]; [rewrite length_last_n; lia | reflexivity |].
  intros Hnil Hlen.
  rewrite length_last_n, length_app, length_map, Hnil, Hlen.
  reflexivity.
Qed.

Lemma message_history_bounded_witness :
  (Sample.appends21 <> []
   \/ (length (messages Sample.empty_context) <= MAX_MESSAGES)%nat)
  /\ let stored :=
       messages (add_messages Sample.empty_context Sample.appends21) in
     (length stored <= 20)%nat
     /\ stored = last_n 20 (messages Sample.empty_context
                            ++ map message_of Sample.appends21)
     /\ (messages Sample.empty_context = [] ->
         length Sample.appends21 = 21%nat -> length stored = 20%nat).
Proof.
  split.
  - left. vm_compute. discriminate.
  - apply (message_history_bounded Sample.empty_context Sample.appends21).
    left. vm_compute. discriminate.
Defined.

End CoreFacts.

(** ** The catalogue search *)

Module CatalogFacts.
Import Catalog SearchSpec.

Lemma validate_text_valid field value :
  text_valid value = true ->
  validate_text field value = ([], option_map PyStr.strip value).
Proof.
  destruct value as [s|]; simpl; [|reflexivity].
  intros Hs. by rewrite Hs.
Qed.

Lemma validate_text_blank field value :
  text_valid value = false ->
  exists s, validate_text field value = ([BlankText field], None)
            /\ value = Some s.
Proof.
  destruct value as [s|]; simpl; [|discriminate].
  intros Hs. rewrite Hs. eauto.
Qed.

Section WithExternals.
Context `{Externals}.

Lemma validate_valid make model year km price :
  criteria_valid make model year km price = true ->
  validate make model year km price
  = inr (mkParams (option_map PyStr.strip make)
                  (option_map PyStr.strip model) year km price).
Proof.
  unfold criteria_valid, validate. intros Hv.
  apply andb_prop in Hv as [Hv Hprice]. apply andb_prop in Hv as [Hv Hkm].
  apply andb_prop in Hv as [Hv Hyear]. apply andb_prop in Hv as [Hmake Hmodel].
  rewrite (validate_text_valid _ _ Hmake), (validate_text_valid _ _ Hmodel).
  simpl.
  assert (validate_year year = []) as ->.
  { destruct year as [y|]; simpl; [|reflexivity].
    apply andb_prop in Hyear as [H1 H2].
    apply Z.leb_le in H1. apply Z.leb_le in H2.
    destruct (y <? 1900) eqn:E1; [apply Z.ltb_lt in E1; lia|].
    destruct (current_year <? y) eqn:E2; [apply Z.ltb_lt in E2; lia|].
    reflexivity. }
  assert (validate_km km = []) as ->.
  { destruct km as [k|]; simpl; [|reflexivity].
    apply Z.leb_le in Hkm.
    destruct (k <? 0) eqn:E1; [apply Z.ltb_lt in E1; lia|]. reflexivity. }
  assert (validate_price price = []) as ->.
  { destruct price as [p|]; simpl; [|reflexivity]. by rewrite Hprice. }
  reflexivity.
Qed.

Lemma validate_year_nil year :
  validate_year year = []
  -> match year with
     | Some y => (1900 <=? y) && (y <=? current_year)
     | None => true
     end = true.
Proof.
  destruct year as [y|]; [|reflexivity]. unfold validate_year.
  destruct (Z.ltb_spec y 1900); [discriminate|].
  destruct (Z.ltb_spec current_year y); [discriminate|]. intros _.
  apply andb_true_intro. split; apply Z.leb_le; lia.
Qed.

Lemma validate_km_nil km :
  validate_km km = []
  -> match km with Some k => 0 <=? k | None => true end = true.
Proof.
  destruct km as [k|]; [|reflexivity]. unfold validate_km.
  destruct (Z.ltb_spec k 0); [discriminate|]. intros _.
  apply Z.leb_le; lia.
Qed.

Lemma validate_price_nil price :
  validate_price price = []
  -> match price with Some p => Qle_bool 0 p | None => true end = true.
Proof.
  destruct price as [p|]; [|reflexivity]. unfold validate_price.
  destruct (Qle_bool 0 p); [reflexivity | discriminate].
Qed.

Lemma validate_invalid make model year km price :
  criteria_valid make model year km price = false ->
  exists issues, validate make model year km price = inl issues.
Proof.
  unfold criteria_valid, validate. intros Hv.
  destruct (validate_text "make" make) as [mi m'] eqn:Em.
  destruct (validate_text "model" model) as [oi o'] eqn:Eo.
  destruct (mi ++ oi ++ validate_year year ++ validate_km km
            ++ validate_price price) as [|i is_] eqn:E; [|eauto].
  exfalso.
  apply app_eq_nil in E as [-> E]. apply app_eq_nil in E as [-> E].
  apply app_eq_nil in E as [Ey E]. apply app_eq_nil in E as [Ek Ep].
  assert (text_valid make = true) as Hm.
  { destruct (text_valid make) eqn:T; [done|].
    destruct (validate_text_blank "make" _ T) as (s & Hs & _).
    rewrite Hs in Em. discriminate. }
  assert (text_valid model = true) as Ho.
  { destruct (text_valid model) eqn:T; [done|].
    destruct (validate_text_blank "model" _ T) as (s & Hs & _).
    rewrite Hs in Eo. discriminate. }
  rewrite Hm, Ho, (validate_year_nil _ Ey), (validate_km_nil _ Ek),
    (validate_price_nil _ Ep) in Hv.
  discriminate.
Qed.

Lemma normalized_text_keep (stored : string) (value : option string) :
  text_valid value = true ->
  PyStr.lower stored = stored ->
  match match option_map PyStr.strip value with
        | Some s => if PyStr.truthy s then Some (PyStr.lower s) else None
        | None => None
        end with
  | Some m => PyStr.truthy m && negb (String.eqb stored m)
  | None => false
  end
  = negb match value with
         | Some m => same_text_ci stored (PyStr.strip m)
         | None => true
         end.
Proof.
  intros Hv Hs. destruct value as [s|]; simpl in *; [|reflexivity].
  rewrite Hv. rewrite PyStrFacts.truthy_lower, Hv. simpl.
  unfold same_text_ci. by rewrite Hs.
Qed.

Lemma keeps_satisfies make model year km price v :
  criteria_valid make model year km price = true ->
  PyStr.lower (row_make v) = row_make v ->
  PyStr.lower (row_model v) = row_model v ->
  keeps (mkParams (option_map PyStr.strip make)
                  (option_map PyStr.strip model) year km price) v
  = satisfies PyStr.strip make model year km price v.
Proof.
  unfold criteria_valid. intros Hv Hmk Hmd.
  apply andb_prop in Hv as [Hv _]. apply andb_prop in Hv as [Hv _].
  apply andb_prop in Hv as [Hv _]. apply andb_prop in Hv as [Hmake Hmodel].
  unfold keeps, satisfies, make_normalized, model_normalized. simpl.
  rewrite (normalized_text_keep _ _ Hmake Hmk).
  rewrite (normalized_text_keep _ _ Hmodel Hmd).
  destruct make as [m|], model as [o|], year as [y|], km as [k|],
    price as [p|]; simpl; unfold Qgtb; rewrite ?Z.ltb_antisym;
    repeat match goal with
    | |- context [same_text_ci ?a ?b] => destruct (same_text_ci a b); simpl
    | |- context [Z.eqb ?a ?b] => destruct (Z.eqb a b); simpl
    | |- context [Z.leb ?a ?b] => destruct (Z.leb a b); simpl
    | |- context [Qle_bool ?a ?b] => destruct (Qle_bool a b); simpl
    end; reflexivity.
Qed.

(** C1 (amended).  When the criteria pass validation, the search over a
    loaded catalogue returns exactly the rows that satisfy every
    criterion that is present (make and model equal up to case to the
    trimmed criterion, year equal, odometer and price at most the
    ceiling), in catalogue order, each converted to a result record;
    [total_count] is the length of the list.  An empty list is a
    normal result. *)
Theorem search_returns_matches catalog make model year km price :
  normalized_catalog catalog ->
  criteria_valid make model year km price = true ->
  search_vehicles catalog make model year km price
  = inr (expected PyStr.strip catalog make model year km price)
  /\ total_count (expected PyStr.strip catalog make model year km price)
     = Z.of_nat
         (length (results
                    (expected PyStr.strip catalog make model year km price))).
Proof.
  intros Hn Hv. split; [|reflexivity].
  unfold search_vehicles, expected. rewrite (validate_valid _ _ _ _ _ Hv).
  assert (List.filter
            (keeps (mkParams (option_map PyStr.strip make)
                      (option_map PyStr.strip model) year km price)) catalog
          = List.filter (satisfies PyStr.strip make model year km price)
                        catalog) as ->; [|reflexivity].
  apply filter_ext_in. intros v Hin.
  unfold normalized_catalog in Hn. rewrite List.Forall_forall in Hn.
  destruct (Hn v Hin) as [H1 H2]. by apply keeps_satisfies.
Qed.

End WithExternals.

Lemma sample_catalog_normalized : normalized_catalog Sample.catalog.
Proof. repeat constructor. Qed.

Lemma search_returns_matches_witness :
  normalized_catalog Sample.catalog
  /\ @criteria_valid Sample.externals (Some " Toyota ") None None None
                     (Some (240000 # 1)%Q) = true
  /\ @search_vehicles Sample.externals Sample.catalog (Some " Toyota ") None
                      None None (Some (240000 # 1)%Q)
     = inr (expected PyStr.strip Sample.catalog (Some " Toyota ") None None
                     None (Some (240000 # 1)%Q)).
Proof.
  split; [exact sample_catalog_normalized|].
  split; [vm_compute; reflexivity|].
  apply (@search_returns_matches Sample.externals);
    [exact sample_catalog_normalized | vm_compute; reflexivity].
Defined.

(** C1 as stated fails: a negative odometer ceiling matches no row of the
    sample catalogue, yet the search does not return the empty result;
    it raises [InvalidSearchParametersError]. *)
Lemma search_every_invocation_counterexample :
  expected id Sample.catalog None None None (Some (-1)) None
  = {| results := []; total_count := 0 |}
  /\ @search_vehicles Sample.externals Sample.catalog None None None
                      (Some (-1)) None
     <> inr (expected id Sample.catalog None None None (Some (-1)) None)
  /\ exists msg,
       @search_vehicles Sample.externals Sample.catalog None None None
                        (Some (-1)) None
       = inl (raise InvalidSearchParametersError msg).
Proof.
  split; [vm_compute; reflexivity|].
  split; [vm_compute; discriminate|].
  eexists. vm_compute. reflexivity.
Qed.

End CatalogFacts.

(** ** The single-vehicle lookup *)

Module LookupFacts.
Import Catalog SearchSpec LookupText.

Lemma find_row_Some catalog n v :
  find_row catalog n = Some v -> In v catalog /\ row_stock_id v = n.
Proof.
  induction catalog as [|w catalog IH]; simpl; [discriminate|].
  destruct (Z.eqb_spec (row_stock_id w) n) as [Heq|Hne].
  - intros [= ->]. auto.
  - intros Hf. destruct (IH Hf). auto.
Qed.

Lemma find_row_None catalog n :
  find_row catalog n = None
  <-> forall v, In v catalog -> row_stock_id v <> n.
Proof.
  induction catalog as [|w catalog IH]; simpl.
  - split; [intros _ v [] | reflexivity].
  - destruct (Z.eqb_spec (row_stock_id w) n) as [Heq|Hne].
    + split; [discriminate|]. intros Hall. destruct (Hall w); auto.
    + rewrite IH. split.
      * intros Hall v [<-|Hin]; auto.
      * intros Hall v Hin. apply Hall. auto.
Qed.

Lemma find_row_unique catalog v :
  List.NoDup (map row_stock_id catalog) -> In v catalog ->
  find_row catalog (row_stock_id v) = Some v.
Proof.
  induction catalog as [|w catalog IH]; simpl; [intros _ []|].
  intros Hnd [->|Hin].
  - by rewrite Z.eqb_refl.
  - apply List.NoDup_cons_iff in Hnd as [Hnotin Hnd].
    destruct (Z.eqb_spec (row_stock_id w) (row_stock_id v)) as [Heq|Hne].
    + exfalso. apply Hnotin. rewrite Heq. by apply in_map.
    + by apply IH.
Qed.

Lemma messages_differ stock_id n :
  invalid_id_message stock_id <> not_found_message n.
Proof. unfold invalid_id_message, not_found_message. simpl. discriminate. Qed.

(** C6 (amended).  On a loaded catalogue the lookup fails in exactly two
    cases, both with the base class [InventoryError]: the identifier does
    not parse as an integer, or no row has that stock id.  The two
    failures carry different messages and the same class. *)
Theorem lookup_failures catalog stock_id :
  (int_of_stock_id stock_id = None ->
   get_vehicle_details catalog stock_id
   = inl (raise InventoryError (invalid_id_message stock_id)))
  /\ (forall n, int_of_stock_id stock_id = Some n ->
      (forall v, In v catalog -> row_stock_id v <> n) ->
      get_vehicle_details catalog stock_id
      = inl (raise InventoryError (not_found_message n)))
  /\ (forall e, get_vehicle_details catalog stock_id = inl e ->
      int_of_stock_id stock_id = None
      \/ exists n, int_of_stock_id stock_id = Some n
           /\ forall v, In v catalog -> row_stock_id v <> n)
  /\ (forall n, invalid_id_message stock_id <> not_found_message n).
Proof.
  unfold get_vehicle_details. split; [|split; [|split]].
  - by intros ->.
  - intros n -> Hall. apply find_row_None in Hall. by rewrite Hall.
  - intros e. destruct (int_of_stock_id stock_id) as [n|] eqn:En; [|auto].
    destruct (find_row catalog n) eqn:Ef; [discriminate|].
    intros _. right. exists n. rewrite find_row_None in Ef. auto.
  - intros n. apply messages_differ.
Qed.

Lemma lookup_failures_witness :
  int_of_stock_id (inr "not-a-number") = None
  /\ get_vehicle_details Sample.catalog (inr "not-a-number")
     = inl (raise InventoryError (invalid_id_message (inr "not-a-number")))
  /\ int_of_stock_id (inr "999") = Some 999
  /\ get_vehicle_details Sample.catalog (inr "999")
     = inl (raise InventoryError (not_found_message 999)).
Proof.
  split; [vm_compute; reflexivity|]. split.
  - apply (proj1 (lookup_failures Sample.catalog (inr "not-a-number"))).
    vm_compute; reflexivity.
  - split; [vm_compute; reflexivity|].
    apply (proj1 (proj2 (lookup_failures Sample.catalog (inr "999"))) 999).
    + vm_compute; reflexivity.
    + apply find_row_None. vm_compute; reflexivity.
Defined.

(** C6 as stated fails: an identifier that is not a number does not raise
    [InvalidSearchParametersError], and it raises the same class as an
    identifier that is absent from the catalogue. *)
Lemma lookup_error_classes_counterexample :
  exists e1 e2,
    get_vehicle_details Sample.catalog (inr "not-a-number") = inl e1
    /\ get_vehicle_details Sample.catalog (inr "999") = inl e2
    /\ isinstance e1 InvalidSearchParametersError = false
    /\ exception_class e1 = exception_class e2.
Proof.
  do 2 eexists. split; [vm_compute; reflexivity|].
  split; [vm_compute; reflexivity|]. split; reflexivity.
Qed.

Section WithExternals.
Context `{Externals}.

(** C9.  In a catalogue with unique stock identifiers, every vehicle a
    search returns is found again by its stock id, and the lookup
    returns the same record. *)
Theorem lookup_round_trip catalog make model year km price found r :
  List.NoDup (map row_stock_id catalog) ->
  search_vehicles catalog make model year km price = inr found ->
  In r (results found) ->
  get_vehicle_details catalog (inl (stock_id r)) = inr r.
Proof.
  intros Hnd Hs Hin. unfold search_vehicles in Hs.
  destruct (validate make model year km price) as [|params];
    [discriminate|].
  injection Hs as <-. simpl in Hin.
  apply in_map_iff in Hin as (v & <- & Hv).
  apply filter_In in Hv as [Hv _].
  unfold get_vehicle_details. simpl.
  by rewrite (find_row_unique _ _ Hnd Hv).
Qed.

End WithExternals.

Lemma sample_catalog_unique : List.NoDup (map row_stock_id Sample.catalog).
Proof. simpl. repeat constructor; simpl; intuition discriminate. Qed.

Lemma lookup_round_trip_witness :
  let r := to_result (Catalog.mkRow 103 "toyota" "yaris" 2021 10000
                                    (210000 # 1) "s" false false) in
  let found := expected PyStr.strip Sample.catalog (Some "TOYOTA") None
                        None None None in
  List.NoDup (map row_stock_id Sample.catalog)
  /\ @search_vehicles Sample.externals Sample.catalog (Some "TOYOTA") None
                      None None None = inr found
  /\ In r (results found)
  /\ get_vehicle_details Sample.catalog (inl (stock_id r)) = inr r.
Proof.
  intros r found.
  assert (Hs : @search_vehicles Sample.externals Sample.catalog
                 (Some "TOYOTA") None None None None = inr found)
    by (vm_compute; reflexivity).
  assert (Hin : In r (results found)) by (vm_compute; auto).
  split; [exact sample_catalog_unique|]. split; [exact Hs|].
  split; [exact Hin|].
  exact (@lookup_round_trip Sample.externals Sample.catalog (Some "TOYOTA")
           None None None None found r sample_catalog_unique Hs Hin).
Defined.

End LookupFacts.

(** ** The session store *)

Module StorageFacts.
Import Core Storage.

Lemma is_expired_true self now context :
  _is_expired self now context = true <-> _ttl self < now - updated_at context.
Proof. unfold _is_expired. apply Z.ltb_lt. Qed.

Lemma get_absent self now sid :
  _store self !! sid = None -> get self now sid = (None, self).
Proof. unfold get. by intros ->. Qed.

Lemma get_expired self now sid context :
  _store self !! sid = Some context ->
  _ttl self < now - updated_at context ->
  get self now sid
  = (None, with_store self (base.delete sid (_store self))).
Proof.
  intros Hs Hexp. unfold get. rewrite Hs.
  apply is_expired_true in Hexp. by rewrite Hexp.
Qed.

Lemma get_live self now sid context :
  _store self !! sid = Some context ->
  now - updated_at context <= _ttl self ->
  get self now sid = (Some context, self).
Proof.
  intros Hs Hlive. unfold get. rewrite Hs.
  destruct (_is_expired self now context) eqn:E; [|reflexivity].
  apply is_expired_true in E. lia.
Qed.

(** C2.  A read of a session whose context was last updated more than the
    time to live ago returns nothing and removes the entry, so that
    [exists] is false for it at any later read; a read of a session that
    has no entry returns nothing as well. *)
Theorem get_expired_evicts self now sid :
  (forall context,
     _store self !! sid = Some context ->
     _ttl self < now - updated_at context ->
     (get self now sid).1 = None
     /\ _store (get self now sid).2 !! sid = None
     /\ forall now', (exists_ (get self now sid).2 now' sid).1 = false)
  /\ (_store self !! sid = None -> (get self now sid).1 = None).
Proof.
  split.
  - intros context Hs Hexp. rewrite (get_expired _ _ _ _ Hs Hexp). simpl.
    split; [reflexivity|]. split; [apply lookup_delete_eq|].
    intros now'. unfold exists_. rewrite get_absent; [reflexivity|].
    simpl. apply lookup_delete_eq.
  - intros Hs. by rewrite get_absent.
Qed.

Lemma sample_adapter_lookup :
  _store Sample.adapter !! "s1" = Some (new_context "s1" 0).
Proof. apply lookup_singleton_eq. Qed.

Lemma get_expired_evicts_witness :
  _store Sample.adapter !! "s1" = Some (new_context "s1" 0)
  /\ _ttl Sample.adapter < Sample.later - updated_at (new_context "s1" 0)
  /\ (get Sample.adapter Sample.later "s1").1 = None
  /\ _store (get Sample.adapter Sample.later "s1").2 !! "s1" = None.
Proof.
  split; [exact sample_adapter_lookup|].
  split; [vm_compute; reflexivity|].
  destruct (proj1 (get_expired_evicts Sample.adapter Sample.later "s1")
              (new_context "s1" 0) sample_adapter_lookup
              ltac:(vm_compute; reflexivity)) as (H1 & H2 & _).
  split; [exact H1 | exact H2].
Defined.

(** C10.  For a session whose context is expired but still stored,
    [exists] answers false while [delete] answers true: [delete] removes
    whatever entry is stored and reports that there was one, and reads no
    clock. *)
Theorem delete_ignores_ttl self now sid context :
  _store self !! sid = Some context ->
  _ttl self < now - updated_at context ->
  (exists_ self now sid).1 = false
  /\ (delete self sid).1 = true
  /\ _store (delete self sid).2 !! sid = None.
Proof.
  intros Hs Hexp. unfold exists_, delete.
  rewrite (get_expired _ _ _ _ Hs Hexp), Hs. simpl.
  split; [reflexivity|]. split; [reflexivity|]. apply lookup_delete_eq.
Qed.

Lemma delete_ignores_ttl_witness :
  _store Sample.adapter !! "s1" = Some (new_context "s1" 0)
  /\ _ttl Sample.adapter < Sample.later - updated_at (new_context "s1" 0)
  /\ (exists_ Sample.adapter Sample.later "s1").1 = false
  /\ (delete Sample.adapter "s1").1 = true
  /\ _store (delete Sample.adapter "s1").2 !! "s1" = None.
Proof.
  split; [exact sample_adapter_lookup|].
  split; [vm_compute; reflexivity|].
  exact (delete_ignores_ttl Sample.adapter Sample.later "s1"
           (new_context "s1" 0) sample_adapter_lookup
           ltac:(vm_compute; reflexivity)).
Defined.
End StorageFacts.

(** ** The clarification guard *)

Module ProcessorFacts.
Import Core Processor GuardText.

Lemma action_eqb_eq a b : AgentAction_eqb a b = true <-> a = b.
Proof. destruct a, b; simpl; split; (done || discriminate). Qed.

(** C3 (amended).  A financing decision without a stock id, on a context
    with neither a selected vehicle nor search results, is always replaced
    by the clarification that asks which vehicle to finance.  A financing
    decision that carries a stock id passes unchanged whenever the context
    has a selected vehicle or search results, or the text holds none of
    the reference phrases; when the text holds such a phrase and the
    context is empty the third rule replaces it by a clarification with
    missing fields make and model. *)
Theorem financing_guard user_text decision ctx :
  action decision = GET_FINANCING_OPTIONS ->
  (PyStr.truthy_opt (stock_id decision) = false ->
   has_context ctx = false ->
   _apply_clarify_guards user_text decision ctx
   = clarify_with financing_question [])
  /\ (PyStr.truthy_opt (stock_id decision) = true ->
      (has_context ctx = true
       \/ needs_reference (PyStr.lower user_text) = false ->
       _apply_clarify_guards user_text decision ctx = decision)
      /\ (has_context ctx = false ->
          needs_reference (PyStr.lower user_text) = true ->
          _apply_clarify_guards user_text decision ctx
          = clarify_with reference_question [MAKE; MODEL])).
Proof.
  intros Ha. unfold _apply_clarify_guards. rewrite Ha. simpl.
  split.
  - by intros -> ->.
  - intros ->. simpl. split.
    + intros [-> | ->]; [by rewrite andb_false_r | reflexivity].
    + by intros -> ->.
Qed.

Lemma financing_guard_witness :
  action (Sample.financing None) = GET_FINANCING_OPTIONS
  /\ PyStr.truthy_opt (stock_id (Sample.financing None)) = false
  /\ has_context Sample.empty_context = false
  /\ _apply_clarify_guards "financiamiento" (Sample.financing None)
       Sample.empty_context
     = clarify_with financing_question [].
Proof.
  split; [reflexivity|]. split; [reflexivity|]. split; [reflexivity|].
  apply (proj1 (financing_guard "financiamiento" (Sample.financing None)
                  Sample.empty_context eq_refl)); reflexivity.
Defined.

(** C3 as stated fails: a financing decision with a stock id is replaced
    by a clarification when the text refers to an earlier vehicle and the
    context is empty. *)
Lemma financing_never_overridden_counterexample :
  action (Sample.financing (Some "101")) = GET_FINANCING_OPTIONS
  /\ PyStr.truthy_opt (stock_id (Sample.financing (Some "101"))) = true
  /\ _apply_clarify_guards "quiero financiar ese auto"
       (Sample.financing (Some "101")) Sample.empty_context
     <> Sample.financing (Some "101")
  /\ action (_apply_clarify_guards "quiero financiar ese auto"
               (Sample.financing (Some "101")) Sample.empty_context)
     = CLARIFY.
Proof.
  split; [reflexivity|]. split; [reflexivity|].
  split; [vm_compute; discriminate | vm_compute; reflexivity].
Qed.
End ProcessorFacts.

(** ** Fuzzy suggestions *)

Module SuggestFacts.
Import Core Agent SuggestSpec.

Lemma length_insert_desc x l : length (insert_desc x l) = S (length l).
Proof.
  induction l as [|y l IH]; simpl; [reflexivity|].
  destruct (scored_geb x y); simpl; [reflexivity | by rewrite IH].
Qed.

Lemma length_sorted_desc l : length (sorted_desc l) = length l.
Proof.
  induction l as [|x l IH]; simpl; [reflexivity|].
  by rewrite length_insert_desc, IH.
Qed.

Lemma in_insert_desc x y l : In y (insert_desc x l) <-> y = x \/ In y l.
Proof.
  induction l as [|z l IH]; simpl; [intuition|].
  destruct (scored_geb x z); simpl; [intuition|]. rewrite IH. intuition.
Qed.

Lemma in_sorted_desc y l : In y (sorted_desc l) <-> In y l.
Proof.
  induction l as [|x l IH]; simpl; [reflexivity|].
  rewrite in_insert_desc, IH. intuition.
Qed.

Lemma in_firstn {A} n (l : list A) x : In x (firstn n l) -> In x l.
Proof.
  intros Hin. rewrite <- (firstn_skipn n l). apply in_or_app. by left.
Qed.

Lemma dict_get_set d k v k' :
  dict_get (dict_set d k v) k'
  = if String.eqb k k' then Some v else dict_get d k'.
Proof.
  induction d as [|[k0 v0] d IH]; simpl; [reflexivity|].
  destruct (String.eqb_spec k0 k) as [->|Hne]; simpl.
  - by destruct (String.eqb k k').
  - rewrite IH. destruct (String.eqb_spec k0 k') as [->|Hne'];
      [|reflexivity].
    destruct (String.eqb_spec k k'); [congruence | reflexivity].
Qed.

Lemma dict_keys_set d k v k' :
  In k' (dict_keys (dict_set d k v)) <-> k' = k \/ In k' (dict_keys d).
Proof.
  unfold dict_keys. induction d as [|[k0 v0] d IH]; simpl; [intuition|].
  destruct (String.eqb_spec k0 k) as [->|Hne]; simpl; [intuition|].
  rewrite IH. intuition.
Qed.

Lemma dict_get_key d k : In k (dict_keys d) -> is_Some (dict_get d k).
Proof.
  unfold dict_keys. induction d as [|[k0 v0] d IH]; simpl; [intros []|].
  destruct (String.eqb_spec k0 k) as [->|Hne]; [eauto|].
  intros [Heq|Hin]; [congruence | auto].
Qed.

Lemma fold_keys options d k :
  In k (dict_keys (fold_left add_option options d))
  <-> In k (dict_keys d) \/ exists opt, In opt options /\ PyStr.lower opt = k.
Proof.
  revert d. induction options as [|o options IH]; intros d; simpl.
  - split; [auto | intros [Hd | (opt & [] & _)]; exact Hd].
  - rewrite IH. unfold add_option at 1. rewrite dict_keys_set. split.
    + intros [[-> | Hd] | (opt & Hin & Hk)]; eauto.
    + intros [Hd | (opt & [<- | Hin] & Hk)]; eauto.
Qed.

Lemma fold_get options d k v :
  dict_get (fold_left add_option options d) k = Some v ->
  dict_get d k = Some v \/ (In v options /\ PyStr.lower v = k).
Proof.
  revert d. induction options as [|o options IH]; intros d; simpl; [auto|].
  intros Hg. apply IH in Hg as [Hg | [Hin Hk]]; [|auto].
  unfold add_option in Hg. rewrite dict_get_set in Hg.
  destruct (String.eqb_spec (PyStr.lower o) k) as [Heq|Hne]; [|auto].
  injection Hg as <-. auto.
Qed.

Section WithExternals.
Context `{Externals}.

Lemma options_map_keys options k :
  In k (dict_keys (options_map options))
  <-> exists opt, In opt options /\ PyStr.lower opt = k.
Proof.
  unfold options_map. change (fun d opt => dict_set d (PyStr.lower opt) opt)
    with add_option. rewrite fold_keys. simpl. intuition.
Qed.

Lemma options_map_get options k v :
  dict_get (options_map options) k = Some v ->
  In v options /\ PyStr.lower v = k.
Proof.
  unfold options_map. change (fun d opt => dict_set d (PyStr.lower opt) opt)
    with add_option. intros Hg. apply fold_get in Hg as [Hg|Hg];
    [discriminate | exact Hg].
Qed.

Lemma get_close_matches_length word possibilities n cutoff :
  (length (get_close_matches word possibilities n cutoff) <= n)%nat.
Proof.
  unfold get_close_matches. rewrite length_map, length_firstn. lia.
Qed.

Lemma get_close_matches_In word possibilities n cutoff x :
  In x (get_close_matches word possibilities n cutoff) ->
  In x possibilities /\ Qle_bool cutoff (ratio x word) = true.
Proof.
  unfold get_close_matches. intros Hin.
  apply in_map_iff in Hin as ([q y] & <- & Hin). simpl.
  apply in_firstn in Hin. apply (proj1 (in_sorted_desc _ _)) in Hin.
  apply in_map_iff in Hin as (z & [= _ ->] & Hin).
  by apply filter_In in Hin.
Qed.

Lemma get_close_matches_nonempty word possibilities n cutoff :
  (0 < n)%nat ->
  get_close_matches word possibilities n cutoff <> []
  <-> exists x, In x possibilities
                /\ Qle_bool cutoff (ratio x word) = true.
Proof.
  intros Hn. split.
  - destruct (get_close_matches word possibilities n cutoff) as [|x l]
      eqn:E; [done|]. intros _. exists x.
    apply (get_close_matches_In word possibilities n cutoff).
    rewrite E. by left.
  - intros (x & Hin & Hr) Hnil.
    apply (f_equal (@length string)) in Hnil. revert Hnil.
    unfold get_close_matches.
    rewrite length_map, length_firstn, length_sorted_desc, length_map.
    assert (In x (List.filter (fun x => Qle_bool cutoff (ratio x word))
                              possibilities)) as Hf
      by (apply filter_In; auto).
    destruct (List.filter _ possibilities); [destruct Hf|]. simpl. lia.
Qed.

Lemma omap_keys_nonempty d matches :
  (forall m, In m matches -> In m (dict_keys d)) ->
  omap (dict_get d) matches = [] -> matches = [].
Proof.
  destruct matches as [|m matches]; [done|]. intros Hkeys. cbn.
  destruct (dict_get_key d m (Hkeys m (or_introl eq_refl))) as [v ->].
  discriminate.
Qed.

Lemma length_omap {A B} (f : A -> option B) l :
  (length (omap f l) <= length l)%nat.
Proof.
  induction l as [|x l IH]; cbn; [lia|].
  destruct (f x); cbn; lia.
Qed.

Lemma in_omap {A B} (f : A -> option B) l y :
  In y (omap f l) -> exists x, In x l /\ f x = Some y.
Proof.
  induction l as [|x l IH]; cbn; [intros []|].
  destruct (f x) as [z|] eqn:E; cbn.
  - intros [<-|Hin]; [eauto|]. destruct (IH Hin) as (x' & ? & ?); eauto.
  - intros Hin. destruct (IH Hin) as (x' & ? & ?); eauto.
Qed.

Lemma suggest_length value options :
  (length (_suggest_matches value options) <= 3)%nat.
Proof.
  unfold _suggest_matches. destruct (negb (PyStr.truthy value)); simpl;
    [lia|].
  etrans; [apply length_omap | apply get_close_matches_length].
Qed.

Lemma suggest_In value options s :
  In s (_suggest_matches value options) ->
  In s options /\ close_enough value s.
Proof.
  unfold _suggest_matches. destruct (negb (PyStr.truthy value));
    [intros []|].
  intros Hin. apply in_omap in Hin as (m & Hm & Hg).
  apply get_close_matches_In in Hm as [_ Hr].
  apply options_map_get in Hg as [Hin Hk]. split; [exact Hin|].
  unfold close_enough. by rewrite Hk.
Qed.

Lemma suggest_nonempty value options :
  _suggest_matches value options <> []
  <-> PyStr.truthy value = true
      /\ exists opt, In opt options /\ close_enough value opt.
Proof.
  split.
  - destruct (_suggest_matches value options) as [|s l] eqn:E; [done|].
    intros _. assert (In s (_suggest_matches value options)) as Hin
      by (rewrite E; by left).
    split; [|exists s; by apply suggest_In].
    unfold _suggest_matches in E. by destruct (PyStr.truthy value).
  - intros [Ht (opt & Hin & Hc)]. unfold _suggest_matches. rewrite Ht.
    simpl. intros Hnil. apply omap_keys_nonempty in Hnil.
    + revert Hnil. apply get_close_matches_nonempty; [lia|].
      exists (PyStr.lower opt). split; [|exact Hc].
      apply options_map_keys. eauto.
    + intros m Hm. by apply get_close_matches_In in Hm as [Hm _].
Qed.

End WithExternals.
End SuggestFacts.

(** ** The router and the presenter *)

Module RouterFacts.
Import Core Agent SuggestSpec SuggestFacts.

Section WithExternals.
Context `{Externals}.

(** C4.  A search decision with a model and no make, whose model belongs
    to two or more makes of the catalogue, is answered by a
    clarification that lists [MAKE] as missing, never by a result
    list; the answer is given before any search is made. *)
Theorem ambiguous_model_clarifies catalog decision :
  action decision = SEARCH_CARS ->
  PyStr.truthy_opt (model decision) = true ->
  PyStr.truthy_opt (make decision) = false ->
  (2 <= length (Catalog.get_makes_for_model catalog
                  (text (model decision))))%nat ->
  route_decision catalog decision
  = ClarifyResult
      (ambiguity_question decision
         (Catalog.get_makes_for_model catalog (text (model decision))))
      [MAKE] decision
  /\ forall found decision',
       route_decision catalog decision
       <> SearchCarsResult found decision'.
Proof.
  intros Ha Hmodel Hmake Hlen.
  assert (route_decision catalog decision
          = ClarifyResult
              (ambiguity_question decision
                 (Catalog.get_makes_for_model catalog
                    (text (model decision))))
              [MAKE] decision) as Hr.
  { unfold route_decision, handle_search_cars, ambiguous_makes.
    rewrite Ha, Hmodel, Hmake. simpl.
    assert ((1 <? length (Catalog.get_makes_for_model catalog
                            (text (model decision))))%nat = true) as ->
      by (apply Nat.ltb_lt; lia).
    reflexivity. }
  split; [exact Hr|]. intros found decision'. rewrite Hr. discriminate.
Qed.

Lemma suggestion_parts_nil ms os :
  suggestion_parts ms os = [] <-> ms = [] /\ os = [].
Proof. destruct ms, os; simpl; split; intros; intuition discriminate. Qed.

Lemma suggestion_parts_heads ms os :
  suggestion_parts ms os = suggestion_parts (firstn 1 ms) (firstn 1 os).
Proof. by destruct ms, os. Qed.

(** C5.  When the search of a decision with a make or a model is made
    and finds nothing, the router answers with a clarification exactly
    when a suggestion exists for the make or for the model, and with
    the empty result unchanged otherwise.  A suggestion is a candidate
    whose lower-cased form is at least 0.8 similar to the lower-cased
    trimmed value; at most three are computed of each kind and only
    the first of each kind is used. *)
Theorem zero_result_policy catalog decision found :
  action decision = SEARCH_CARS ->
  ambiguous_makes catalog decision = None ->
  PyStr.truthy_opt (make decision) || PyStr.truthy_opt (model decision)
  = true ->
  Catalog.search_vehicles catalog (make decision) (model decision)
    (year decision) None (price_max decision) = inr found ->
  Catalog.total_count found = 0 ->
  let ms := make_suggestions catalog decision in
  let os := model_suggestions catalog decision in
  (ms = [] /\ os = [] ->
   route_decision catalog decision = SearchCarsResult found decision)
  /\ (ms <> [] \/ os <> [] ->
      route_decision catalog decision
      = ClarifyResult
          (suggestion_question
             (suggestion_parts (firstn 1 ms) (firstn 1 os)))
          [] decision)
  /\ (length ms <= 3)%nat /\ (length os <= 3)%nat
  /\ (ms <> []
      <-> PyStr.truthy_opt (make decision) = true
          /\ exists opt, In opt (Catalog.get_available_makes catalog)
                         /\ close_enough (text (make decision)) opt)
  /\ (os <> []
      <-> PyStr.truthy_opt (model decision) = true
          /\ exists opt, In opt (available_models catalog decision)
                         /\ close_enough (text (model decision)) opt).
Proof.
  intros Ha Hamb Hcrit Hs Hzero ms os.
  assert (Hroute : route_decision catalog decision
            = match suggestion_parts ms os with
              | [] => SearchCarsResult found decision
              | suggestions =>
                  ClarifyResult (suggestion_question suggestions) []
                                decision
              end).
  { unfold route_decision, handle_search_cars.
    rewrite Ha, Hamb, Hs, Hzero, Hcrit. reflexivity. }
  split; [|split; [|split; [|split; [|split]]]].
  - intros Hnil. apply suggestion_parts_nil in Hnil.
    by rewrite Hroute, Hnil.
  - intros Hne. rewrite Hroute, <- suggestion_parts_heads.
    destruct (suggestion_parts ms os) eqn:E; [|reflexivity].
    apply suggestion_parts_nil in E. destruct E, Hne; contradiction.
  - unfold ms, make_suggestions.
    destruct (PyStr.truthy_opt (make decision)); [|simpl; lia].
    apply suggest_length.
  - unfold os, model_suggestions.
    destruct (PyStr.truthy_opt (model decision)); [|simpl; lia].
    apply suggest_length.
  - unfold ms, make_suggestions.
    destruct (PyStr.truthy_opt (make decision)) eqn:E.
    + rewrite suggest_nonempty. split; [intros [_ Hx]; auto|].
      intros [_ Hx]. split; [|exact Hx].
      destruct (make decision) as [s|]; [exact E | discriminate].
    + split; [done | intros [? _]; discriminate].
  - unfold os, model_suggestions.
    destruct (PyStr.truthy_opt (model decision)) eqn:E.
    + rewrite suggest_nonempty. split; [intros [_ Hx]; auto|].
      intros [_ Hx]. split; [|exact Hx].
      destruct (model decision) as [s|]; [exact E | discriminate].
    + split; [done | intros [? _]; discriminate].
Qed.

(** C8.  Every error result renders to the same reply, the fixed
    apology with the success flag false, whatever error text it
    carries; the error text goes to the log only. *)
Theorem error_reply_is_generic error decision :
  (render_reply (ErrorResult error decision)).1
  = {| reply_message := _DEFAULT_ERROR_MESSAGE; vehicles := [];
       success := false |}
  /\ (forall error',
        (render_reply (ErrorResult error' decision)).1
        = (render_reply (ErrorResult error decision)).1)
  /\ map log_error (render_reply (ErrorResult error decision)).2
     = [error].
Proof. repeat split. Qed.

End WithExternals.

Lemma ambiguous_model_clarifies_witness :
  let decision := Sample.search None (Some "Swift") None in
  action decision = SEARCH_CARS
  /\ PyStr.truthy_opt (model decision) = true
  /\ PyStr.truthy_opt (make decision) = false
  /\ Catalog.get_makes_for_model Sample.catalog (text (model decision))
     = ["Maruti"; "Suzuki"]
  /\ @route_decision Sample.externals Sample.catalog decision
     = ClarifyResult
         (ambiguity_question decision
            (Catalog.get_makes_for_model Sample.catalog
               (text (model decision))))
         [MAKE] decision.
Proof.
  intros decision.
  split; [reflexivity|]. split; [reflexivity|]. split; [reflexivity|].
  split; [vm_compute; reflexivity|].
  apply (@ambiguous_model_clarifies Sample.externals Sample.catalog decision);
    [reflexivity | reflexivity | reflexivity | vm_compute; lia].
Defined.

Lemma zero_result_policy_witness :
  let decision := Sample.search (Some "Toyot") None None in
  let found := {| Catalog.results := []; Catalog.total_count := 0 |} in
  action decision = SEARCH_CARS
  /\ ambiguous_makes Sample.catalog decision = None
  /\ PyStr.truthy_opt (make decision) || PyStr.truthy_opt (model decision)
     = true
  /\ @Catalog.search_vehicles Sample.externals Sample.catalog
       (make decision) (model decision) (year decision) None
       (price_max decision) = inr found
  /\ @make_suggestions Sample.externals Sample.catalog decision = ["Toyota"]
  /\ @route_decision Sample.externals Sample.catalog decision
     = ClarifyResult
         "No encontré coincidencias exactas. ¿Te referías a marca 'Toyota'?"
         [] decision.
Proof.
  intros decision found.
  assert (Hs : @Catalog.search_vehicles Sample.externals Sample.catalog
                 (make decision) (model decision) (year decision) None
                 (price_max decision) = inr found)
    by (vm_compute; reflexivity).
  assert (Hms : @make_suggestions Sample.externals Sample.catalog decision
                = ["Toyota"]) by (vm_compute; reflexivity).
  split; [reflexivity|]. split; [vm_compute; reflexivity|].
  split; [reflexivity|]. split; [exact Hs|]. split; [exact Hms|].
  destruct (@zero_result_policy Sample.externals Sample.catalog decision
              found eq_refl ltac:(vm_compute; reflexivity) eq_refl Hs
              eq_refl) as (_ & Hclar & _).
  rewrite Hclar; [vm_compute; reflexivity|].
  left. rewrite Hms. discriminate.
Defined.

End RouterFacts.

(** ** The life cycle of a stored session *)

Module StoreLifecycle.
Import Core Storage StorageFacts.

Lemma is_expired_false self now context :
  _is_expired self now context = false
  <-> now - updated_at context <= _ttl self.
Proof. unfold _is_expired. rewrite Z.ltb_ge. reflexivity. Qed.

Lemma exists_true_iff self now sid :
  (exists_ self now sid).1 = true
  <-> exists context, _store self !! sid = Some context
                      /\ now - updated_at context <= _ttl self.
Proof.
  unfold exists_, get. destruct (_store self !! sid) as [c|] eqn:E; simpl.
  - destruct (_is_expired self now c) eqn:Ex; simpl.
    + apply is_expired_true in Ex. split; [discriminate|].
      intros (c' & [= <-] & Hle). lia.
    + apply is_expired_false in Ex. split; [eauto | reflexivity].
  - split; [discriminate | intros (c' & [=] & _)].
Qed.

Lemma get_or_create_cases self now sid :
  (forall stored, _store self !! sid = Some stored ->
     now - updated_at stored <= _ttl self ->
     get_or_create self now sid = (stored, self))
  /\ (_store self !! sid = None
      \/ (exists stored, _store self !! sid = Some stored
                         /\ _ttl self < now - updated_at stored) ->
      get_or_create self now sid
      = (new_context sid now,
         with_store self (<[sid := new_context sid now]> (_store self)))).
Proof.
  unfold get_or_create. destruct (_store self !! sid) as [c|] eqn:E.
  - destruct (_is_expired self now c) eqn:Ex; simpl.
    + apply is_expired_true in Ex. split; [|reflexivity].
      intros stored [= <-] Hle. lia.
    + apply is_expired_false in Ex.
      split; [by intros stored [= <-] _|].
      intros [[=] | (stored & [= <-] & Hlt)]. lia.
  - split; [intros stored [=] | reflexivity].
Qed.

(** The constructor accepts exactly the positive times to live, and the
    adapter it builds is empty. *)
Theorem init_requires_positive_ttl ttl_minutes :
  (init ttl_minutes = None <-> ttl_minutes <= 0)
  /\ (forall self, init ttl_minutes = Some self ->
      0 < _ttl self /\ _ttl self = minutes ttl_minutes
      /\ _ttl_minutes self = ttl_minutes
      /\ session_count self = 0
      /\ forall now sid, get self now sid = (None, self)).
Proof.
  unfold init. destruct (Z.leb_spec ttl_minutes 0) as [Hle|Hgt].
  - split; [tauto | discriminate].
  - split; [split; [discriminate | lia]|].
    intros self [= <-]. unfold minutes, session_count. simpl.
    split; [lia|]. split; [reflexivity|]. split; [reflexivity|].
    split; [reflexivity|]. intros now sid. by apply get_absent.
Qed.

Lemma init_requires_positive_ttl_witness :
  init 0 = None
  /\ init 10 = Some {| _store := ∅; _ttl := 600000000; _ttl_minutes := 10 |}
  /\ 0 < _ttl {| _store := ∅; _ttl := 600000000; _ttl_minutes := 10 |}.
Proof.
  split; [apply (proj1 (init_requires_positive_ttl 0)); lia|].
  split; [reflexivity|].
  apply (proj2 (init_requires_positive_ttl 10)
           {| _store := ∅; _ttl := 600000000; _ttl_minutes := 10 |}).
  reflexivity.
Defined.

(** After [get_or_create] the session is stored with the context that was
    returned, and it exists exactly until that context's time to live has
    elapsed; a context that was live is returned as it is, an absent or
    expired one is replaced by a fresh empty context; no other session is
    touched. *)
Theorem get_or_create_then_exists self now sid :
  let ctx := (get_or_create self now sid).1 in
  let self' := (get_or_create self now sid).2 in
  _store self' !! sid = Some ctx
  /\ (forall now', (exists_ self' now' sid).1 = true
                   <-> now' - updated_at ctx <= _ttl self)
  /\ (forall stored, _store self !! sid = Some stored ->
      now - updated_at stored <= _ttl self -> ctx = stored /\ self' = self)
  /\ (_store self !! sid = None
      \/ (exists stored, _store self !! sid = Some stored
                         /\ _ttl self < now - updated_at stored) ->
      ctx = new_context sid now)
  /\ (forall other, other <> sid ->
      _store self' !! other = _store self !! other).
Proof.
  intros ctx self'. subst ctx self'. unfold get_or_create.
  destruct (_store self !! sid) as [c|] eqn:E.
  - destruct (_is_expired self now c) eqn:Ex; simpl.
    + apply is_expired_true in Ex.
      split; [apply lookup_insert_eq|]. split.
      { intros now'. rewrite exists_true_iff. simpl.
        rewrite lookup_insert_eq. split.
        - by intros (c' & [= <-] & Hle).
        - eauto. }
      split; [intros stored [= <-] Hle; lia|].
      split; [reflexivity|].
      intros other Hne. by apply lookup_insert_ne.
    + apply is_expired_false in Ex.
      split; [exact E|]. split.
      { intros now'. rewrite exists_true_iff, E. split.
        - by intros (c' & [= <-] & Hle).
        - eauto. }
      split; [by intros stored [= <-] _|].
      split; [|reflexivity].
      intros [[=] | (stored & [= <-] & Hlt)]. lia.
  - simpl. split; [apply lookup_insert_eq|]. split.
    { intros now'. rewrite exists_true_iff. simpl.
      rewrite lookup_insert_eq. split.
      - by intros (c' & [= <-] & Hle).
      - eauto. }
    split; [intros stored [=]|]. split; [reflexivity|].
    intros other Hne. by apply lookup_insert_ne.
Qed.

Lemma get_or_create_then_exists_witness :
  _store Sample.adapter !! "s2" = None
  /\ (get_or_create Sample.adapter 5 "s2").1 = new_context "s2" 5
  /\ (exists_ (get_or_create Sample.adapter 5 "s2").2 (Storage.minutes 10) "s2").1
     = true.
Proof.
  destruct (get_or_create_then_exists Sample.adapter 5 "s2")
    as (_ & Hex & _ & Hfresh & _).
  assert (Hnone : _store Sample.adapter !! "s2" = None)
    by (apply lookup_singleton_ne; discriminate).
  split; [exact Hnone|]. split; [apply Hfresh; by left|].
  apply Hex. rewrite (Hfresh (or_introl Hnone)). vm_compute. discriminate.
Defined.

(** What [save] stores is read back by [get] as long as the time to live
    has not elapsed since the save: the saved context with its
    [updated_at] set to the time of the save, whatever was stored before.
    No other session is touched. *)
Theorem save_then_get self now now' ctx :
  now' - now <= _ttl self ->
  get (save self now ctx) now' (session_id ctx)
  = (Some (touch ctx now), save self now ctx)
  /\ (exists_ (save self now ctx) now' (session_id ctx)).1 = true
  /\ (forall other, other <> session_id ctx ->
      _store (save self now ctx) !! other = _store self !! other).
Proof.
  intros Hle.
  assert (Hl : _store (save self now ctx) !! session_id ctx
               = Some (touch ctx now)) by apply lookup_insert_eq.
  split; [|split].
  - by apply get_live.
  - apply exists_true_iff. eauto.
  - intros other Hne. unfold save. simpl. by apply lookup_insert_ne.
Qed.

Lemma save_then_get_witness :
  Sample.later - Sample.later <= _ttl Sample.adapter
  /\ get (save Sample.adapter Sample.later (new_context "s1" 0)) Sample.later
         "s1"
     = (Some (touch (new_context "s1" 0) Sample.later),
        save Sample.adapter Sample.later (new_context "s1" 0)).
Proof.
  split; [vm_compute; discriminate|].
  apply (save_then_get Sample.adapter Sample.later Sample.later
           (new_context "s1" 0)).
  vm_compute. discriminate.
Defined.

(** [delete] answers whether the session was stored, removes it, and
    answers false when repeated; no other session is touched. *)
Theorem delete_then_absent self sid :
  ((delete self sid).1 = true <-> is_Some (_store self !! sid))
  /\ (delete (delete self sid).2 sid).1 = false
  /\ (forall now, get (delete self sid).2 now sid
                  = (None, (delete self sid).2))
  /\ (forall other, other <> sid ->
      _store (delete self sid).2 !! other = _store self !! other).
Proof.
  unfold delete. destruct (_store self !! sid) as [c|] eqn:E; simpl.
  - split; [split; eauto|]. rewrite lookup_delete_eq. simpl.
    split; [reflexivity|]. split.
    + intros now. apply get_absent. simpl. apply lookup_delete_eq.
    + intros other Hne. by apply lookup_delete_ne.
  - rewrite E. simpl. split; [split; [discriminate | by intros [? [=]]]|].
    split; [reflexivity|]. split; [|reflexivity].
    intros now. by apply get_absent.
Qed.

Lemma delete_then_absent_witness :
  is_Some (_store Sample.adapter !! "s1")
  /\ (delete Sample.adapter "s1").1 = true
  /\ (delete (delete Sample.adapter "s1").2 "s1").1 = false.
Proof.
  assert (Hs : is_Some (_store Sample.adapter !! "s1"))
    by (rewrite sample_adapter_lookup; eauto).
  destruct (delete_then_absent Sample.adapter "s1") as (Hd & Hagain & _).
  split; [exact Hs|]. split; [by apply Hd | exact Hagain].
Defined.

(** [get] changes the store only by evicting the expired context it was
    asked for: what it returns is the stored, unexpired context, the store
    is then unchanged, and no other session is ever touched. *)
Theorem get_reads_only self now sid :
  (forall ctx, (get self now sid).1 = Some ctx ->
     _store self !! sid = Some ctx
     /\ now - updated_at ctx <= _ttl self
     /\ (get self now sid).2 = self)
  /\ (forall other, other <> sid ->
      _store (get self now sid).2 !! other = _store self !! other)
  /\ (session_count (get self now sid).2 <= session_count self).
Proof.
  unfold get. destruct (_store self !! sid) as [c|] eqn:E; simpl.
  - destruct (_is_expired self now c) eqn:Ex; simpl.
    + split; [discriminate|]. split.
      * intros other Hne. by apply lookup_delete_ne.
      * unfold session_count. simpl.
        rewrite map_size_delete, E. simpl. lia.
    + apply is_expired_false in Ex.
      split; [by intros ctx [= <-]|]. split; [reflexivity | lia].
  - split; [discriminate|]. split; [reflexivity | lia].
Qed.

Lemma get_reads_only_witness :
  (get Sample.adapter 1 "s1").1 = Some (new_context "s1" 0)
  /\ (get Sample.adapter 1 "s1").2 = Sample.adapter.
Proof.
  assert (Hg : (get Sample.adapter 1 "s1").1 = Some (new_context "s1" 0)).
  { rewrite (get_live Sample.adapter 1 "s1" (new_context "s1" 0)
               sample_adapter_lookup); [reflexivity|].
    vm_compute. discriminate. }
  split; [exact Hg|].
  apply (proj1 (get_reads_only Sample.adapter 1 "s1") _ Hg).
Defined.

(** [clear_all] answers the number of stored sessions and empties the
    store: a second call answers 0, and no session is found afterwards. *)
Theorem clear_all_twice self :
  (clear_all self).1 = session_count self
  /\ (clear_all (clear_all self).2).1 = 0
  /\ session_count (clear_all self).2 = 0
  /\ _ttl (clear_all self).2 = _ttl self
  /\ forall now sid, (get (clear_all self).2 now sid).1 = None
                     /\ (exists_ (clear_all self).2 now sid).1 = false.
Proof.
  unfold clear_all, session_count. simpl. rewrite map_size_empty.
  repeat split.
Qed.

Lemma cleanup_lookup self now sid :
  _store (cleanup_expired self now).2 !! sid
  = match _store self !! sid with
    | Some ctx => if _is_expired self now ctx then None else Some ctx
    | None => None
    end.
Proof.
  unfold cleanup_expired. simpl.
  destruct (_store self !! sid) as [c|] eqn:E.
  - destruct (_is_expired self now c) eqn:Ex.
    + apply map_lookup_filter_None. right. intros c' Hc' Hne. simpl in Hne.
      rewrite E in Hc'. injection Hc' as <-. congruence.
    + apply map_lookup_filter_Some. split; [exact E|]. simpl. congruence.
  - apply map_lookup_filter_None. by left.
Qed.

(** The sweep removes exactly the expired sessions and answers how many
    they were: a stored context survives when its time to live has not
    elapsed, the count and the sessions left add up to the sessions
    before, a second sweep at the same time finds nothing, and readers
    see no difference: [get] answers the same before and after. *)
Theorem cleanup_expired_sweeps self now :
  (forall sid ctx,
     _store (cleanup_expired self now).2 !! sid = Some ctx
     <-> _store self !! sid = Some ctx
         /\ now - updated_at ctx <= _ttl self)
  /\ (cleanup_expired self now).1 + session_count (cleanup_expired self now).2
     = session_count self
  /\ (cleanup_expired (cleanup_expired self now).2 now).1 = 0
  /\ (forall sid, (get (cleanup_expired self now).2 now sid).1
                  = (get self now sid).1).
Proof.
  split; [|split; [|split]].
  - intros sid ctx. rewrite cleanup_lookup.
    destruct (_store self !! sid) as [c|]; [|split; [discriminate | by intros [? _]]].
    destruct (_is_expired self now c) eqn:Ex.
    + apply is_expired_true in Ex. split; [discriminate|].
      intros [[= <-] Hle]. lia.
    + apply is_expired_false in Ex. split.
      * by intros [= <-].
      * by intros [[= <-] _].
  - unfold cleanup_expired, session_count. simpl.
    rewrite <- (map_filter_union_complement
                  (fun kv => _is_expired self now kv.2 = true) (_store self))
      at 3.
    rewrite map_size_disj_union by apply map_disjoint_filter_complement.
    lia.
  - pose proof (cleanup_lookup self now) as Hl.
    assert (Httl : _ttl (cleanup_expired self now).2 = _ttl self)
      by reflexivity.
    revert Hl Httl. generalize (cleanup_expired self now).2 as self'.
    intros self' Hl Httl. unfold cleanup_expired. simpl.
    assert (filter (fun kv => _is_expired self' now kv.2 = true)
                   (_store self') = ∅) as ->;
      [|by rewrite map_size_empty].
    apply map_empty_filter_2. intros sid c Hc Hex. simpl in Hex.
    rewrite Hl in Hc.
    destruct (_store self !! sid) as [c'|]; [|discriminate].
    destruct (_is_expired self now c') eqn:Ex; [discriminate|].
    injection Hc as <-. unfold _is_expired in *. rewrite Httl in Hex.
    congruence.
  - intros sid. unfold get at 1. rewrite cleanup_lookup. unfold get.
    destruct (_store self !! sid) as [c|]; [|reflexivity].
    change (_is_expired (cleanup_expired self now).2 now)
      with (_is_expired self now).
    destruct (_is_expired self now c) eqn:Ex; [reflexivity|].
    by rewrite Ex.
Qed.

Lemma cleanup_expired_sweeps_witness :
  (cleanup_expired Sample.adapter Sample.later).1 = 1
  /\ (_store (cleanup_expired Sample.adapter Sample.later).2 !! "s1"
      = Some (new_context "s1" 0)
      <-> _store Sample.adapter !! "s1" = Some (new_context "s1" 0)
          /\ Sample.later - updated_at (new_context "s1" 0)
             <= _ttl Sample.adapter)
  /\ (cleanup_expired (cleanup_expired Sample.adapter Sample.later).2
                      Sample.later).1 = 0.
Proof.
  destruct (cleanup_expired_sweeps Sample.adapter Sample.later)
    as (Hl & _ & Hagain & _).
  split; [vm_compute; reflexivity|]. split; [apply Hl | exact Hagain].
Defined.

End StoreLifecycle.

(** ** The guard over a turn, and the conversation service *)

Module GuardFacts.
Import Core Processor GuardText TurnText.

Lemma has_context_selected ctx v :
  selected_vehicle ctx = Some v -> has_context ctx = true.
Proof. unfold has_context. intros ->. by destruct (last_search_results ctx). Qed.

Lemma has_context_results ctx :
  last_search_results ctx <> [] -> has_context ctx = true.
Proof. unfold has_context. by destruct (last_search_results ctx). Qed.

Lemma guard_second_rule user_text decision ctx :
  action decision = GET_FINANCING_OPTIONS ->
  PyStr.truthy_opt (stock_id decision) = false ->
  last_search_results ctx <> [] ->
  selected_vehicle ctx = None ->
  _apply_clarify_guards user_text decision ctx
  = clarify_with listed_vehicle_question [].
Proof.
  intros Ha Hs Hr Hsel. unfold _apply_clarify_guards.
  rewrite Ha, Hs, Hsel, (has_context_results _ Hr). simpl.
  destruct (last_search_results ctx); [done | reflexivity].
Qed.

(** The guard either leaves the decision as it is or replaces it by a
    clarification: it never produces any other action, and the
    clarification it produces always carries a question and a list of
    missing fields and nothing else. *)
Theorem guard_only_clarifies user_text decision ctx :
  let guarded := _apply_clarify_guards user_text decision ctx in
  guarded = decision
  \/ (action guarded = CLARIFY
      /\ exists question missing,
           guarded = clarify_with question missing
           /\ PyStr.truthy question = true
           /\ (missing = [] \/ missing = [MAKE; MODEL])).
Proof.
  intros guarded. subst guarded. unfold _apply_clarify_guards.
  repeat match goal with
         | |- context [if ?b then _ else _] => destruct b
         end;
    first [ by left
          | right; split; [reflexivity|]; do 2 eexists;
            split; [reflexivity|]; split; [reflexivity|]; auto ].
Qed.

(** With a selected vehicle in the context the guard overrides nothing;
    with search results and no selection it overrides only a financing
    decision that has no stock id, which it replaces by the question about
    the listed vehicles. *)
Theorem guard_passes_with_context user_text decision ctx :
  (forall v, selected_vehicle ctx = Some v ->
     _apply_clarify_guards user_text decision ctx = decision)
  /\ (last_search_results ctx <> [] ->
      action decision <> GET_FINANCING_OPTIONS
      \/ PyStr.truthy_opt (stock_id decision) = true ->
      _apply_clarify_guards user_text decision ctx = decision)
  /\ (last_search_results ctx <> [] -> selected_vehicle ctx = None ->
      action decision = GET_FINANCING_OPTIONS ->
      PyStr.truthy_opt (stock_id decision) = false ->
      _apply_clarify_guards user_text decision ctx
      = clarify_with listed_vehicle_question []).
Proof.
  split; [|split].
  - intros v Hsel. unfold _apply_clarify_guards.
    rewrite Hsel, (has_context_selected _ _ Hsel). simpl.
    by rewrite !andb_false_r.
  - intros Hr Hor. unfold _apply_clarify_guards.
    rewrite (has_context_results _ Hr). simpl. rewrite !andb_false_r.
    destruct Hor as [Hne | ->]; simpl.
    + destruct (AgentAction_eqb (action decision) GET_FINANCING_OPTIONS) eqn:E;
        [|reflexivity].
      apply ProcessorFacts.action_eqb_eq in E. contradiction.
    + by rewrite !andb_false_r.
  - intros Hr Hsel Ha Hs. by apply guard_second_rule.
Qed.

Lemma guard_passes_with_context_witness :
  let ctx := Selection.set_search_results Sample.empty_context
               [mkSelectedVehicle 101 "Toyota" "Corolla" 2020 (250000 # 1)
                                  30000] 1 in
  last_search_results ctx <> []
  /\ selected_vehicle ctx = None
  /\ _apply_clarify_guards "financiamiento" (Sample.financing None) ctx
     = clarify_with listed_vehicle_question []
  /\ _apply_clarify_guards "el primero" (Sample.search None None None) ctx
     = Sample.search None None None.
Proof.
  intros ctx.
  assert (Hr : last_search_results ctx <> []) by discriminate.
  destruct (guard_passes_with_context "financiamiento" (Sample.financing None)
              ctx) as (_ & _ & H3).
  destruct (guard_passes_with_context "el primero"
              (Sample.search None None None) ctx) as (_ & H2 & _).
  split; [exact Hr|]. split; [reflexivity|]. split.
  - apply H3; [exact Hr | reflexivity | reflexivity | reflexivity].
  - apply H2; [exact Hr | left; discriminate].
Defined.

End GuardFacts.

Module ConversationFacts.
Import Core Selection Storage Agent Conversation Processor TurnText.

Lemma find_vehicle_Some vehicles stock_id v :
  find_vehicle vehicles stock_id = Some v ->
  In v vehicles /\ sv_stock_id v = stock_id.
Proof.
  induction vehicles as [|w vehicles IH]; simpl; [discriminate|].
  destruct (Z.eqb_spec (sv_stock_id w) stock_id) as [Heq|Hne].
  - intros [= <-]. auto.
  - intros Hf. destruct (IH Hf). auto.
Qed.

Lemma find_vehicle_None vehicles stock_id :
  find_vehicle vehicles stock_id = None
  <-> forall v, In v vehicles -> sv_stock_id v <> stock_id.
Proof.
  induction vehicles as [|w vehicles IH]; simpl.
  - split; [intros _ v [] | reflexivity].
  - destruct (Z.eqb_spec (sv_stock_id w) stock_id) as [Heq|Hne].
    + split; [discriminate|]. intros Hall. destruct (Hall w); auto.
    + rewrite IH. split.
      * intros Hall v [<-|Hin]; auto.
      * intros Hall v Hin. apply Hall. auto.
Qed.

(** Selecting by stock id succeeds exactly when the last search results
    hold a vehicle with that id; it then selects such a vehicle and keeps
    the results and the history, and otherwise leaves the context
    untouched. *)
Theorem select_by_stock_id_cases ctx stock_id now :
  let answer := (select_vehicle_by_stock_id ctx stock_id now).1 in
  let ctx' := (select_vehicle_by_stock_id ctx stock_id now).2 in
  (answer = true
   <-> exists v, In v (last_search_results ctx) /\ sv_stock_id v = stock_id)
  /\ (answer = true ->
      exists v, selected_vehicle ctx' = Some v
                /\ In v (last_search_results ctx)
                /\ sv_stock_id v = stock_id
                /\ last_search_results ctx' = last_search_results ctx
                /\ messages ctx' = messages ctx
                /\ updated_at ctx' = now)
  /\ (answer = false -> ctx' = ctx).
Proof.
  intros answer ctx'. subst answer ctx'. unfold select_vehicle_by_stock_id.
  destruct (find_vehicle (last_search_results ctx) stock_id) as [v|] eqn:E;
    simpl.
  - apply find_vehicle_Some in E as [Hin Hid].
    split; [split; eauto|]. split; [|discriminate].
    intros _. exists v. auto 10.
  - split.
    + split; [discriminate|]. intros (v & Hin & Hid).
      rewrite find_vehicle_None in E. by destruct (E v Hin).
    + split; [discriminate | reflexivity].
Qed.

Lemma select_by_stock_id_cases_witness :
  let v := mkSelectedVehicle 101 "Toyota" "Corolla" 2020 (250000 # 1) 30000 in
  let ctx := set_search_results Sample.empty_context [v] 1 in
  (select_vehicle_by_stock_id ctx 101 2).1 = true
  /\ (select_vehicle_by_stock_id ctx 999 2).1 = false
  /\ (select_vehicle_by_stock_id ctx 999 2).2 = ctx.
Proof.
  intros v ctx.
  destruct (select_by_stock_id_cases ctx 101 2) as (Hiff & _ & _).
  destruct (select_by_stock_id_cases ctx 999 2) as (_ & _ & Hsame).
  split; [apply Hiff; exists v; split; [by left | reflexivity]|].
  split; [reflexivity | by apply Hsame].
Defined.

Lemma to_selected_ids vehicles :
  map sv_stock_id (_to_selected_vehicles vehicles)
  = map Catalog.stock_id vehicles.
Proof. unfold _to_selected_vehicles. rewrite map_map. reflexivity. Qed.

(** Committing a turn records the action and appends the reply as an
    assistant message within the 20-message bound.  The last search
    results are replaced only when the reply carries vehicles: a reply
    without vehicles keeps the previous results.  The selected vehicle is
    never changed, even when new results replace the ones it came from. *)
Theorem update_context_commits ctx reply action now now' :
  let ctx' := update_context ctx reply action now now' in
  last_action ctx' = Some action
  /\ (vehicles reply = [] ->
      last_search_results ctx' = last_search_results ctx)
  /\ (vehicles reply <> [] ->
      last_search_results ctx' = _to_selected_vehicles (vehicles reply)
      /\ map sv_stock_id (last_search_results ctx')
         = map Catalog.stock_id (vehicles reply))
  /\ selected_vehicle ctx' = selected_vehicle ctx
  /\ messages ctx'
     = last_n 20 (messages ctx
                  ++ [mkMessage ASSISTANT (reply_message reply) now'])
  /\ (length (messages ctx') <= 20)%nat
  /\ updated_at ctx' = now'
  /\ session_id ctx' = session_id ctx.
Proof.
  intros ctx'. subst ctx'. unfold update_context, add_assistant_message.
  split; [reflexivity|]. split.
  { intros ->. reflexivity. }
  split.
  { intros Hne. destruct (vehicles reply) as [|v vs] eqn:E; [done|].
    split; [reflexivity|]. exact (to_selected_ids (v :: vs)). }
  split; [by destruct (vehicles reply)|].
  rewrite CoreFacts.messages_add_message. change MAX_MESSAGES with 20%nat.
  assert (messages (set_last_action
                      match vehicles reply with
                      | [] => ctx
                      | _ :: _ =>
                          set_search_results ctx
                            (_to_selected_vehicles (vehicles reply)) now
                      end action) = messages ctx) as ->
    by (by destruct (vehicles reply)).
  split; [reflexivity|].
  split; [rewrite CoreFacts.length_last_n; lia|].
  split; [reflexivity | by destruct (vehicles reply)].
Qed.

Lemma update_context_commits_witness :
  let reply := mkReply "No encontré vehículos." [] true in
  let v := mkSelectedVehicle 101 "Toyota" "Corolla" 2020 (250000 # 1) 30000 in
  let ctx := set_search_results Sample.empty_context [v] 1 in
  vehicles reply = []
  /\ last_search_results (update_context ctx reply "search_cars" 2 3) = [v].
Proof.
  intros reply v ctx. split; [reflexivity|].
  destruct (update_context_commits ctx reply "search_cars" 2 3)
    as (_ & Hkeep & _).
  rewrite Hkeep; reflexivity.
Defined.

(** After a turn whose reply listed vehicles, a financing request without
    a stock id is answered by the question about the listed vehicles, as
    long as no vehicle is selected. *)
Theorem financing_after_search ctx reply action now now' user_text decision :
  vehicles reply <> [] ->
  selected_vehicle ctx = None ->
  Core.action decision = GET_FINANCING_OPTIONS ->
  PyStr.truthy_opt (stock_id decision) = false ->
  _apply_clarify_guards user_text decision
    (update_context ctx reply action now now')
  = clarify_with listed_vehicle_question [].
Proof.
  intros Hv Hsel Ha Hs.
  destruct (vehicles reply) as [|v vs] eqn:E; [done|].
  apply GuardFacts.guard_second_rule; [exact Ha | exact Hs | |].
  - unfold update_context. rewrite E. simpl. discriminate.
  - unfold update_context. rewrite E. simpl. exact Hsel.
Qed.

Lemma financing_after_search_witness :
  let car := Catalog.to_result
               (Catalog.mkRow 101 "toyota" "corolla" 2020 30000 (250000 # 1)
                              "le" true false) in
  let reply := mkReply "¡Encontré 1 vehículo que coincide con tu búsqueda!"
                       [car] true in
  vehicles reply <> []
  /\ _apply_clarify_guards "quiero financiarlo" (Sample.financing None)
       (update_context Sample.empty_context reply "search_cars" 1 2)
     = clarify_with listed_vehicle_question [].
Proof.
  intros car reply.
  assert (Hv : vehicles reply <> []) by discriminate.
  split; [exact Hv|].
  apply (financing_after_search Sample.empty_context reply "search_cars" 1 2
           "quiero financiarlo" (Sample.financing None) Hv);
    reflexivity.
Defined.

(** A turn starts by filing the user's message under the session.  For a
    live session the message is appended to the stored history (within
    the 20-message bound) and selection and results are kept; for an
    unknown or expired session the turn starts from a fresh context, so
    an expired session's history, selection and results are gone.  Either
    way the context returned is the one stored, and the session then
    exists until the time to live has elapsed since the message. *)
Theorem start_turn_history store now now' sid user_message :
  let ctx := (start_turn store now now' sid user_message).1 in
  let store' := (start_turn store now now' sid user_message).2 in
  _store store' !! sid = Some ctx
  /\ updated_at ctx = now'
  /\ (forall stored, _store store !! sid = Some stored ->
      now - updated_at stored <= _ttl store ->
      messages ctx
      = last_n 20 (messages stored ++ [mkMessage USER user_message now'])
      /\ selected_vehicle ctx = selected_vehicle stored
      /\ last_search_results ctx = last_search_results stored)
  /\ (_store store !! sid = None
      \/ (exists stored, _store store !! sid = Some stored
                         /\ _ttl store < now - updated_at stored) ->
      messages ctx = [mkMessage USER user_message now']
      /\ selected_vehicle ctx = None
      /\ last_search_results ctx = []
      /\ session_id ctx = sid)
  /\ (forall t, (exists_ store' t sid).1 = true <-> t - now' <= _ttl store)
  /\ (forall other, other <> sid ->
      _store store' !! other = _store store !! other).
Proof.
  intros ctx store'. subst ctx store'. unfold start_turn.
  destruct (StoreLifecycle.get_or_create_cases store now sid) as [Hlive Hfresh].
  assert (Hcases :
    (exists stored, _store store !! sid = Some stored
                    /\ now - updated_at stored <= _ttl store)
    \/ (_store store !! sid = None
        \/ exists stored, _store store !! sid = Some stored
                          /\ _ttl store < now - updated_at stored)).
  { destruct (_store store !! sid) as [c|]; [|auto].
    destruct (Z.le_gt_cases (now - updated_at c) (_ttl store)); eauto 6. }
  assert (Hexists : forall c s1 t,
            _ttl s1 = _ttl store ->
            (exists_ (with_store s1
                        (<[sid := add_user_message c user_message now']>
                           (_store s1))) t sid).1 = true
            <-> t - now' <= _ttl store).
  { intros c s1 t Httl. rewrite StoreLifecycle.exists_true_iff.
    cbn [_store _ttl with_store]. rewrite lookup_insert_eq, Httl. split.
    - by intros (c' & [= <-] & Hle).
    - eauto. }
  destruct Hcases as [(stored & Hs & Hle) | Hold].
  - rewrite (Hlive stored Hs Hle). cbn [fst snd].
    split; [apply lookup_insert_eq|]. split; [reflexivity|]. split.
    { intros stored' Hs' _. rewrite Hs in Hs'. injection Hs' as <-.
      unfold add_user_message. rewrite CoreFacts.messages_add_message. auto. }
    split.
    { intros [Hn | (stored' & Hs' & Hlt)]; [congruence|].
      rewrite Hs in Hs'. injection Hs' as <-. lia. }
    split; [intros t; by apply Hexists|].
    intros other Hne. cbn [_store with_store]. by rewrite lookup_insert_ne.
  - rewrite (Hfresh Hold). cbn [fst snd].
    split; [apply lookup_insert_eq|]. split; [reflexivity|]. split.
    { intros stored Hs Hle. destruct Hold as [Hn | (stored' & Hs' & Hlt)];
        [congruence|]. rewrite Hs in Hs'. injection Hs' as <-. lia. }
    split; [auto|].
    split; [intros t; by apply Hexists|].
    intros other Hne. cbn [_store with_store].
    by rewrite !lookup_insert_ne.
Qed.

Lemma start_turn_history_witness :
  (exists stored, _store Sample.adapter !! "s1" = Some stored
                  /\ _ttl Sample.adapter < Sample.later - updated_at stored)
  /\ messages (start_turn Sample.adapter Sample.later Sample.later "s1"
                          "hola").1
     = [mkMessage USER "hola" Sample.later].
Proof.
  assert (Hexp : exists stored,
             _store Sample.adapter !! "s1" = Some stored
             /\ _ttl Sample.adapter < Sample.later - updated_at stored).
  { exists (new_context "s1" 0).
    split; [exact StorageFacts.sample_adapter_lookup | vm_compute; reflexivity]. }
  split; [exact Hexp|].
  destruct (start_turn_history Sample.adapter Sample.later Sample.later "s1"
              "hola") as (_ & _ & _ & Hfresh & _).
  apply Hfresh. by right.
Defined.

(** Selecting a vehicle through the service answers a vehicle only for a
    live session whose last results hold that stock id; the vehicle it
    answers is then the session's selected vehicle for as long as the
    session lives.  For an absent or expired session, or an unknown stock
    id, it answers nothing. *)
Theorem select_then_read_back store now now' now'' sid stock_id :
  let answer := (select_vehicle store now now' now'' sid stock_id).1 in
  let store' := (select_vehicle store now now' now'' sid stock_id).2 in
  (forall v, answer = Some v ->
     sv_stock_id v = stock_id
     /\ (exists ctx, _store store !! sid = Some ctx
                     /\ now - updated_at ctx <= _ttl store
                     /\ In v (last_search_results ctx))
     /\ forall t, t - now'' <= _ttl store ->
                  (get_selected_vehicle store' t sid).1 = Some v)
  /\ (answer = None
      <-> (forall ctx, _store store !! sid = Some ctx ->
             now - updated_at ctx <= _ttl store ->
             forall v, In v (last_search_results ctx) ->
                       sv_stock_id v <> stock_id)).
Proof.
  intros answer store'. subst answer store'. unfold select_vehicle.
  destruct (_store store !! sid) as [c|] eqn:Es.
  2:{ rewrite StorageFacts.get_absent by done. simpl.
      split; [discriminate|]. split; [|reflexivity]. intros _ ctx [=]. }
  destruct (Z.le_gt_cases (now - updated_at c) (_ttl store)) as [Hle|Hgt].
  2:{ rewrite (StorageFacts.get_expired _ _ _ _ Es) by lia. simpl.
      split; [discriminate|]. split; [|reflexivity].
      intros _ ctx [= <-] Hle. lia. }
  rewrite (StorageFacts.get_live _ _ _ _ Es Hle).
  unfold select_vehicle_by_stock_id.
  destruct (find_vehicle (last_search_results c) stock_id) as [v|] eqn:Ef;
    simpl.
  - apply find_vehicle_Some in Ef as [Hin Hid]. split.
    + intros v' [= <-]. split; [exact Hid|]. split; [eauto|].
      intros t Ht. unfold get_selected_vehicle.
      set (c' := touch (Selection.select_vehicle c v now') now'').
      rewrite (StorageFacts.get_live _ t sid c'); [reflexivity | |exact Ht].
      unfold save. simpl.
      destruct (decide (session_id c = sid)) as [->|Hne].
      * apply lookup_insert_eq.
      * rewrite lookup_insert_ne by done. apply lookup_insert_eq.
    + split; [discriminate|]. intros Hall.
      by destruct (Hall c eq_refl Hle v Hin).
  - split; [discriminate|]. split; [|reflexivity].
    intros _ ctx [= <-] _. by apply find_vehicle_None.
Qed.

Lemma select_then_read_back_witness :
  let v := mkSelectedVehicle 101 "Toyota" "Corolla" 2020 (250000 # 1) 30000 in
  let store := save Sample.adapter 0
                 (set_search_results (new_context "s1" 0) [v] 0) in
  (select_vehicle store 1 2 3 "s1" 101).1 = Some v
  /\ (3 - 3 <= _ttl store ->
      (get_selected_vehicle (select_vehicle store 1 2 3 "s1" 101).2 3 "s1").1
      = Some v).
Proof.
  intros v store.
  assert (Ha : (select_vehicle store 1 2 3 "s1" 101).1 = Some v).
  { unfold select_vehicle.
    rewrite (StorageFacts.get_live store 1 "s1"
               (touch (set_search_results (new_context "s1" 0) [v] 0) 0));
      [reflexivity | apply lookup_insert_eq | vm_compute; discriminate]. }
  split; [exact Ha|].
  destruct (select_then_read_back store 1 2 3 "s1" 101) as [Hsome _].
  destruct (Hsome v Ha) as (_ & _ & Hread). exact (Hread 3).
Defined.

End ConversationFacts.

(** ** The derived views of the catalogue *)

Module ViewFacts.
Import Catalog SearchSpec CatalogVocabulary.

Lemma insert_sorted_hd x y l :
  String.leb y x = true ->
  HdRel (fun a b => String.leb a b = true) y l ->
  HdRel (fun a b => String.leb a b = true) y (PyStr.insert_sorted x l).
Proof.
  intros Hyx Hhd. destruct l as [|z l]; simpl; [by constructor|].
  destruct (String.leb x z); constructor; [exact Hyx|].
  by inversion Hhd.
Qed.

Lemma insert_sorted_ascending x l :
  ascending l -> ascending (PyStr.insert_sorted x l).
Proof.
  unfold ascending. induction l as [|y l IH]; simpl; intros Hs.
  - repeat constructor.
  - destruct (String.leb x y) eqn:E.
    + constructor; [exact Hs | by constructor].
    + inversion Hs as [|? ? Hs' Hhd]; subst. constructor; [by apply IH|].
      apply insert_sorted_hd; [|exact Hhd].
      destruct (String.leb_total x y) as [H1|H1]; [congruence | exact H1].
Qed.

Lemma sorted_ascending l : ascending (PyStr.sorted l).
Proof.
  induction l as [|x l IH]; simpl; [constructor|].
  by apply insert_sorted_ascending.
Qed.

Lemma insert_sorted_NoDup x l :
  ~ In x l -> List.NoDup l -> List.NoDup (PyStr.insert_sorted x l).
Proof.
  induction l as [|y l IH]; simpl; intros Hx Hnd.
  - constructor; [intros [] | constructor].
  - destruct (String.leb x y).
    + constructor; [exact Hx | exact Hnd].
    + apply List.NoDup_cons_iff in Hnd as [Hy Hnd].
      constructor.
      * rewrite PyStrFacts.in_insert_sorted. intros [->|Hin]; auto.
      * apply IH; auto.
Qed.

Lemma sorted_NoDup l : List.NoDup l -> List.NoDup (PyStr.sorted l).
Proof.
  induction l as [|x l IH]; simpl; intros Hnd; [constructor|].
  apply List.NoDup_cons_iff in Hnd as [Hx Hnd].
  apply insert_sorted_NoDup; [|by apply IH].
  by rewrite PyStrFacts.in_sorted.
Qed.

Lemma sorted_set_NoDup l : List.NoDup (PyStr.sorted_set l).
Proof. apply sorted_NoDup, List.NoDup_nodup. Qed.

Lemma sorted_set_two a b l :
  In a l -> In b l -> a <> b -> (2 <= length (PyStr.sorted_set l))%nat.
Proof.
  intros Ha Hb Hne.
  assert (Hincl : incl [a; b] (PyStr.sorted_set l)).
  { intros x [<-|[<-|[]]]; by apply PyStrFacts.in_sorted_set. }
  assert (Hnd : List.NoDup [a; b]).
  { constructor; [intros [Heq|[]]; congruence|].
    constructor; [intros [] | constructor]. }
  apply (List.NoDup_incl_length Hnd Hincl).
Qed.

(** The makes of a model are listed by their display names, without
    duplicates and in ascending order; a name is listed exactly when some
    row with the trimmed, lower-cased model carries that make.  The empty
    model has no makes. *)
Theorem makes_for_model_listing catalog model :
  (forall name,
     In name (get_makes_for_model catalog model)
     <-> PyStr.truthy model = true
         /\ exists v, In v catalog
                      /\ row_model v = PyStr.lower (PyStr.strip model)
                      /\ PyStr.title (row_make v) = name)
  /\ List.NoDup (get_makes_for_model catalog model)
  /\ ascending (get_makes_for_model catalog model)
  /\ get_makes_for_model catalog "" = [].
Proof.
  unfold get_makes_for_model. split; [|split; [|split]].
  - intros name. destruct (PyStr.truthy model); simpl.
    + rewrite PyStrFacts.in_sorted_set, in_map_iff. split.
      * intros (v & Ht & Hin). apply filter_In in Hin as [Hin Heq].
        apply String.eqb_eq in Heq. eauto.
      * intros (_ & v & Hin & Hm & Ht). exists v. split; [exact Ht|].
        apply filter_In. split; [exact Hin|]. by apply String.eqb_eq.
    + split; [intros [] | intros [[=] _]].
  - destruct (negb (PyStr.truthy model)); [constructor|].
    apply sorted_set_NoDup.
  - destruct (negb (PyStr.truthy model)); [constructor|].
    apply sorted_ascending.
  - reflexivity.
Qed.

Lemma makes_for_model_listing_witness :
  In "Suzuki" (get_makes_for_model Sample.catalog " SWIFT ")
  <-> PyStr.truthy " SWIFT " = true
      /\ exists v, In v Sample.catalog
                   /\ row_model v = PyStr.lower (PyStr.strip " SWIFT ")
                   /\ PyStr.title (row_make v) = "Suzuki".
Proof. apply (proj1 (makes_for_model_listing Sample.catalog " SWIFT ")). Defined.

(** In a loaded catalogue, two rows of one model with different makes make
    that model ambiguous: it has at least two makes. *)
Theorem two_rows_make_model_ambiguous catalog model v1 v2 :
  normalized_catalog catalog ->
  PyStr.truthy model = true ->
  In v1 catalog -> In v2 catalog ->
  row_model v1 = PyStr.lower (PyStr.strip model) ->
  row_model v2 = PyStr.lower (PyStr.strip model) ->
  row_make v1 <> row_make v2 ->
  (2 <= length (get_makes_for_model catalog model))%nat.
Proof.
  intros Hn Ht H1 H2 Hm1 Hm2 Hne. unfold get_makes_for_model.
  rewrite Ht. simpl.
  unfold normalized_catalog in Hn. rewrite List.Forall_forall in Hn.
  apply (sorted_set_two (PyStr.title (row_make v1))
                        (PyStr.title (row_make v2))).
  - apply in_map_iff. exists v1. split; [reflexivity|].
    apply filter_In. split; [exact H1 | by apply String.eqb_eq].
  - apply in_map_iff. exists v2. split; [reflexivity|].
    apply filter_In. split; [exact H2 | by apply String.eqb_eq].
  - intros Heq. apply Hne.
    apply PyStrFacts.title_inj_lower; [apply (Hn v1 H1) | apply (Hn v2 H2)
                                       | exact Heq].
Qed.

Lemma two_rows_make_model_ambiguous_witness :
  let v1 := mkRow 104 "suzuki" "swift" 2018 60000 (150000 # 1) "gl" false
                  false in
  let v2 := mkRow 105 "maruti" "swift" 2017 80000 (140000 # 1) "vxi" false
                  false in
  normalized_catalog Sample.catalog
  /\ In v1 Sample.catalog /\ In v2 Sample.catalog
  /\ row_make v1 <> row_make v2
  /\ (2 <= length (get_makes_for_model Sample.catalog "Swift"))%nat.
Proof.
  intros v1 v2.
  assert (H1 : In v1 Sample.catalog) by (simpl; auto 10).
  assert (H2 : In v2 Sample.catalog) by (simpl; auto 10).
  assert (Hne : row_make v1 <> row_make v2) by discriminate.
  split; [exact CatalogFacts.sample_catalog_normalized|].
  split; [exact H1|]. split; [exact H2|]. split; [exact Hne|].
  exact (two_rows_make_model_ambiguous Sample.catalog "Swift" v1 v2
           CatalogFacts.sample_catalog_normalized eq_refl H1 H2 eq_refl
           eq_refl Hne).
Defined.

End ViewFacts.

(** ** More on the search *)

Module SearchMore.
Import Catalog SearchSpec CatalogVocabulary CatalogFacts.

Section WithExternals.
Context `{Externals}.

Lemma validate_inr_valid make model year km price params :
  validate make model year km price = inr params ->
  criteria_valid make model year km price = true
  /\ params = mkParams (option_map PyStr.strip make)
                       (option_map PyStr.strip model) year km price.
Proof.
  intros Hv. destruct (criteria_valid make model year km price) eqn:E.
  - split; [reflexivity|]. rewrite (validate_valid _ _ _ _ _ E) in Hv.
    by injection Hv.
  - destruct (validate_invalid _ _ _ _ _ E) as [issues Hi].
    rewrite Hi in Hv. discriminate.
Qed.

(** The search raises exactly when the criteria are invalid, whatever the
    catalogue holds, and what it raises is always
    [InvalidSearchParametersError]. *)
Theorem search_raises_iff_invalid catalog make model year km price :
  (criteria_valid make model year km price = false
   <-> exists e, search_vehicles catalog make model year km price = inl e)
  /\ (forall e, search_vehicles catalog make model year km price = inl e ->
      exception_class e = InvalidSearchParametersError)
  /\ (criteria_valid make model year km price = true
      <-> exists found,
            search_vehicles catalog make model year km price = inr found).
Proof.
  unfold search_vehicles.
  destruct (criteria_valid make model year km price) eqn:E.
  - rewrite (validate_valid _ _ _ _ _ E).
    split; [split; [discriminate | intros [e [=]]]|].
    split; [discriminate|]. split; eauto.
  - destruct (validate_invalid _ _ _ _ _ E) as [issues ->].
    split; [split; eauto|]. split; [by intros e [= <-]|].
    split; [discriminate | intros [found [=]]].
Qed.




Lemma keeps_with_price make model year km p v :
  keeps (mkParams make model year km (Some p)) v
  = keeps (mkParams make model year km None) v
    && Qle_bool (row_price v) p.
Proof.
  unfold keeps, Qgtb, make_normalized, model_normalized.
  cbn [p_make p_model p_year p_km p_price].
  destruct (match match make with Some s => _ | None => _ end with
            | Some m => _ | None => _ end); [reflexivity|].
  destruct (match match model with Some s => _ | None => _ end with
            | Some m => _ | None => _ end); [reflexivity|].
  destruct (match year with Some y => _ | None => _ end); [reflexivity|].
  destruct (match km with Some k => _ | None => _ end); [reflexivity|].
  by destruct (Qle_bool (row_price v) p).
Qed.

Lemma length_filter_and {A} (f g : A -> bool) l :
  (length (List.filter (fun x => f x && g x) l)
   <= length (List.filter f l))%nat.
Proof.
  induction l as [|x l IH]; simpl; [lia|].
  destruct (f x), (g x); simpl; lia.
Qed.

(** A price ceiling taken from a vehicle that an unconstrained search
    returned gives a search that succeeds, still returns that vehicle,
    returns only vehicles at or below the ceiling, and returns nothing the
    first search did not return. *)
Theorem price_ceiling_of_a_result catalog make model year km found r :
  search_vehicles catalog make model year km None = inr found ->
  In r (results found) ->
  Qle_bool 0 (price r) = true ->
  exists found',
    search_vehicles catalog make model year km (Some (price r)) = inr found'
    /\ In r (results found')
    /\ (forall r', In r' (results found') ->
          Qle_bool (price r') (price r) = true /\ In r' (results found))
    /\ total_count found' <= total_count found.
Proof.
  intros Hs Hin Hp. unfold search_vehicles in *.
  destruct (validate make model year km None) as [|params] eqn:Ev;
    [discriminate|].
  apply validate_inr_valid in Ev as [Hv ->]. injection Hs as <-.
  assert (criteria_valid make model year km (Some (price r)) = true) as Hv'.
  { unfold criteria_valid in *. rewrite andb_true_r in Hv.
    by rewrite Hv, Hp. }
  rewrite (validate_valid _ _ _ _ _ Hv'). eexists. split; [reflexivity|].
  simpl in *. apply in_map_iff in Hin as (v & <- & Hv0).
  apply filter_In in Hv0 as [Hin Hk].
  split; [|split].
  - apply in_map_iff. exists v. split; [reflexivity|].
    apply filter_In. split; [exact Hin|]. rewrite keeps_with_price, Hk.
    simpl. apply Qle_bool_iff. apply Qle_refl.
  - intros r' Hr'. apply in_map_iff in Hr' as (v' & <- & Hv1).
    apply filter_In in Hv1 as [Hin' Hk']. rewrite keeps_with_price in Hk'.
    apply andb_prop in Hk' as [Hk1 Hk2]. split; [exact Hk2|].
    apply in_map_iff. exists v'. split; [reflexivity|].
    apply filter_In. auto.
  - rewrite !length_map. apply Nat2Z.inj_le.
    rewrite (filter_ext _ _ (fun v' => keeps_with_price _ _ _ _ _ v')).
    apply length_filter_and.
Qed.

(** Every vehicle a search returns is the conversion of a catalogue row,
    and its make and model are among the makes and models the catalogue
    lists; a search never returns more vehicles than the catalogue has. *)
Theorem search_results_are_listed catalog make model year km price found r :
  search_vehicles catalog make model year km price = inr found ->
  In r (results found) ->
  (exists v, In v catalog /\ r = to_result v)
  /\ In (Catalog.make r) (get_available_makes catalog)
  /\ In (Catalog.model r) (get_available_models catalog None)
  /\ (length (results found) <= length catalog)%nat.
Proof.
  intros Hs Hin. unfold search_vehicles in Hs.
  destruct (validate make model year km price) as [|params]; [discriminate|].
  injection Hs as <-. simpl in *.
  split; [|split; [|split]].
  - apply in_map_iff in Hin as (v & <- & Hv).
    apply filter_In in Hv as [Hv _]. eauto.
  - apply in_map_iff in Hin as (v & <- & Hv).
    apply filter_In in Hv as [Hv _].
    unfold get_available_makes. apply PyStrFacts.in_sorted_set.
    apply in_map_iff. eauto.
  - apply in_map_iff in Hin as (v & <- & Hv).
    apply filter_In in Hv as [Hv _].
    unfold get_available_models. apply PyStrFacts.in_sorted_set.
    apply in_map_iff. eauto.
  - rewrite length_map. apply List.filter_length_le.
Qed.

End WithExternals.

Lemma search_raises_iff_invalid_witness :
  @criteria_valid Sample.externals (Some "   ") None None None None = false
  /\ exists e, @search_vehicles Sample.externals Sample.catalog (Some "   ")
                 None None None None = inl e.
Proof.
  assert (Hc : @criteria_valid Sample.externals (Some "   ") None None None
                 None = false) by (vm_compute; reflexivity).
  split; [exact Hc|].
  by apply (proj1 (@search_raises_iff_invalid Sample.externals Sample.catalog
                     (Some "   ") None None None None)).
Defined.


Lemma price_ceiling_of_a_result_witness :
  let r := to_result (mkRow 103 "toyota" "yaris" 2021 10000 (210000 # 1) "s"
                            false false) in
  let found := expected PyStr.strip Sample.catalog (Some "Toyota") None None
                        None None in
  @search_vehicles Sample.externals Sample.catalog (Some "Toyota") None None
    None None = inr found
  /\ In r (results found)
  /\ Qle_bool 0 (price r) = true
  /\ exists found',
       @search_vehicles Sample.externals Sample.catalog (Some "Toyota") None
         None None (Some (price r)) = inr found'
       /\ In r (results found').
Proof.
  intros r found.
  assert (Hs : @search_vehicles Sample.externals Sample.catalog
                 (Some "Toyota") None None None None = inr found)
    by (vm_compute; reflexivity).
  assert (Hin : In r (results found)) by (vm_compute; auto).
  assert (Hp : Qle_bool 0 (price r) = true) by (vm_compute; reflexivity).
  split; [exact Hs|]. split; [exact Hin|]. split; [exact Hp|].
  destruct (@price_ceiling_of_a_result Sample.externals Sample.catalog
              (Some "Toyota") None None None found r Hs Hin Hp)
    as (found' & Hs' & Hin' & _).
  exists found'. auto.
Defined.

Lemma search_results_are_listed_witness :
  let r := to_result (mkRow 102 "honda" "civic" 2019 45000 (230000 # 1) "ex"
                            true true) in
  let found := expected PyStr.strip Sample.catalog None (Some "civic") None
                        None None in
  @search_vehicles Sample.externals Sample.catalog None (Some "civic") None
    None None = inr found
  /\ In r (results found)
  /\ In (Catalog.make r) (get_available_makes Sample.catalog).
Proof.
  intros r found.
  assert (Hs : @search_vehicles Sample.externals Sample.catalog None
                 (Some "civic") None None None = inr found)
    by (vm_compute; reflexivity).
  assert (Hin : In r (results found)) by (vm_compute; auto).
  split; [exact Hs|]. split; [exact Hin|].
  destruct (@search_results_are_listed Sample.externals Sample.catalog None
              (Some "civic") None None None found r Hs Hin)
    as (_ & Hmake & _).
  exact Hmake.
Defined.

End SearchMore.

(** ** The handlers and the replies *)

Module HandlerFacts.
Import Core Agent HandlerVocabulary.

Lemma or_else_truthy x fallback :
  PyStr.truthy fallback = true -> PyStr.truthy (or_else x fallback) = true.
Proof.
  intros Hf. unfold or_else. destruct x as [s|]; [|exact Hf].
  destruct (PyStr.truthy s) eqn:E; [exact E | exact Hf].
Qed.

(** The details handler and the financing handler make the same lookup:
    without a stock id each answers its own error; with one, financing
    answers the price of the very car the details handler answers, a
    price that a catalogue row with that stock id carries, and both carry
    the same error text when the lookup fails. *)
Theorem financing_and_details_agree catalog decision :
  (PyStr.truthy_opt (stock_id decision) = false ->
   handle_get_car_details catalog decision
   = ErrorResult details_id_required decision
   /\ handle_get_financing_options catalog decision
      = ErrorResult financing_id_required decision)
  /\ (forall car,
        handle_get_car_details catalog decision
        = GetCarDetailsResult car decision ->
        handle_get_financing_options catalog decision
        = FinancingOptionsResult (Catalog.price car) decision)
  /\ (forall p,
        handle_get_financing_options catalog decision
        = FinancingOptionsResult p decision ->
        exists n v,
          PyStr.int_of_str (text (stock_id decision)) = Some n
          /\ In v catalog /\ Catalog.row_stock_id v = n
          /\ Catalog.row_price v = p
          /\ handle_get_car_details catalog decision
             = GetCarDetailsResult (Catalog.to_result v) decision)
  /\ (PyStr.truthy_opt (stock_id decision) = true ->
      forall e,
        handle_get_car_details catalog decision = ErrorResult e decision
        <-> handle_get_financing_options catalog decision
            = ErrorResult e decision).
Proof.
  unfold handle_get_car_details, handle_get_financing_options, details_of,
    Catalog.get_vehicle_details. simpl.
  destruct (PyStr.truthy_opt (stock_id decision)) eqn:Et; simpl.
  2:{ split; [auto|]. split; [discriminate|]. split; [discriminate|].
      discriminate. }
  split; [discriminate|].
  destruct (PyStr.int_of_str (text (stock_id decision))) as [n|] eqn:En;
    simpl.
  2:{ split; [discriminate|]. split; [discriminate|]. intros _ e. tauto. }
  destruct (Catalog.find_row catalog n) as [v|] eqn:Ef; simpl.
  2:{ split; [discriminate|]. split; [discriminate|]. intros _ e. tauto. }
  apply LookupFacts.find_row_Some in Ef as [Hin Hid].
  split; [by intros car [= <-]|]. split.
  - intros p [= <-]. exists n, v. auto.
  - intros _ e. split; discriminate.
Qed.

Lemma financing_and_details_agree_witness :
  let decision := Sample.financing (Some "102") in
  handle_get_car_details Sample.catalog decision
  = GetCarDetailsResult
      (Catalog.to_result
         (Catalog.mkRow 102 "honda" "civic" 2019 45000 (230000 # 1) "ex" true
                        true)) decision
  /\ handle_get_financing_options Sample.catalog decision
     = FinancingOptionsResult (230000 # 1) decision.
Proof.
  intros decision.
  assert (Hd : handle_get_car_details Sample.catalog decision
               = GetCarDetailsResult
                   (Catalog.to_result
                      (Catalog.mkRow 102 "honda" "civic" 2019 45000
                                     (230000 # 1) "ex" true true)) decision)
    by (vm_compute; reflexivity).
  split; [exact Hd|].
  destruct (financing_and_details_agree Sample.catalog decision)
    as (_ & Hprice & _).
  exact (Hprice _ Hd).
Defined.

Section WithExternals.
Context `{Externals}.

(** Every action is answered by a result of its own kind or, where the
    handler can fail, by an error; a search can also be answered by a
    clarification.  The result always refers back to the decision it was
    routed from. *)
Theorem route_answers_in_kind catalog decision :
  answers (action decision) (route_decision catalog decision) = true
  /\ result_decision (route_decision catalog decision) = decision.
Proof.
  unfold route_decision. destruct (action decision).
  - unfold handle_search_cars.
    destruct (ambiguous_makes catalog decision); [auto|].
    destruct (Catalog.search_vehicles _ _ _ _ _ _); [auto|].
    destruct (_ && _); [|auto].
    destruct (suggestion_parts _ _); auto.
  - unfold handle_get_car_details.
    destruct (negb _); [auto|]. destruct (details_of _ _); auto.
  - unfold handle_get_financing_options.
    destruct (negb _); [auto|]. destruct (details_of _ _); auto.
  - unfold handle_get_kavak_info. destruct kavak_info; auto.
  - unfold handle_respond. destruct (negb _); auto.
  - auto.
  - auto.
Qed.

(** The reply of a result: only an error result is rendered as a failure,
    only an error is logged, and only a search result puts vehicles in
    the reply, namely the vehicles the search found. *)
Theorem reply_flags result :
  (success (render_reply result).1 = false
   <-> exists error decision, result = ErrorResult error decision)
  /\ ((render_reply result).2 <> []
      <-> exists error decision, result = ErrorResult error decision)
  /\ (vehicles (render_reply result).1 <> [] ->
      exists found decision,
        result = SearchCarsResult found decision
        /\ vehicles (render_reply result).1 = Catalog.results found).
Proof.
  destruct result; simpl; (split; [|split]);
    try (split; [discriminate | by intros (? & ? & [=])]);
    try (split; [done | by intros (? & ? & [=])]);
    try (split; eauto); try done; eauto.
Qed.

(** Clarifications and refusals never fail: the router answers them with
    the decision's message, or with a fixed question or refusal when the
    message is missing or empty, and the reply is a success that carries
    that text. *)
Theorem clarify_and_refusal_never_fail catalog decision :
  action decision = CLARIFY \/ action decision = OUT_OF_SCOPE ->
  let reply := (render_reply (route_decision catalog decision)).1 in
  success reply = true
  /\ PyStr.truthy (reply_message reply) = true
  /\ vehicles reply = []
  /\ (forall m, message decision = Some m -> PyStr.truthy m = true ->
      reply_message reply = m)
  /\ (PyStr.truthy_opt (message decision) = false ->
      reply_message reply
      = match action decision with
        | CLARIFY => "¿Podrías proporcionar más información?"
        | _ => "Lo siento, eso está fuera de mi alcance."
        end).
Proof.
  intros [Ha|Ha] reply; subst reply; unfold route_decision; rewrite Ha;
    simpl.
  - split; [reflexivity|]. split; [by apply or_else_truthy|].
    split; [reflexivity|]. split.
    + intros m -> Hm. simpl. by rewrite Hm.
    + destruct (message decision) as [m|]; simpl; [by intros ->|done].
  - split; [reflexivity|]. split; [by apply or_else_truthy|].
    split; [reflexivity|]. split.
    + intros m -> Hm. simpl. by rewrite Hm.
    + destruct (message decision) as [m|]; simpl; [by intros ->|done].
Qed.

(** A respond decision is echoed: its message becomes the reply, word for
    word, with success and no vehicles; without a message the user gets
    the generic apology. *)
Theorem respond_echoes_message catalog decision :
  action decision = RESPOND ->
  (forall m, message decision = Some m -> PyStr.truthy m = true ->
     render_reply (route_decision catalog decision)
     = ({| reply_message := m; vehicles := []; success := true |}, []))
  /\ (PyStr.truthy_opt (message decision) = false ->
      (render_reply (route_decision catalog decision)).1
      = {| reply_message := _DEFAULT_ERROR_MESSAGE; vehicles := [];
           success := false |}).
Proof.
  intros Ha. unfold route_decision, handle_respond. rewrite Ha. split.
  - intros m Hm Ht. rewrite Hm. simpl. rewrite Ht. reflexivity.
  - intros ->. reflexivity.
Qed.

(** What the search handler does apart from its two clarifications:
    criteria that fail validation give an error, which the user sees as
    the generic apology; a search that finds vehicles is answered with
    exactly those vehicles; and a search with neither make nor model is
    answered with its result even when that is empty. *)
Theorem search_handler_outcomes catalog decision :
  action decision = SEARCH_CARS ->
  ambiguous_makes catalog decision = None ->
  (SearchSpec.criteria_valid (make decision) (model decision) (year decision)
     None (price_max decision) = false ->
   (exists error, route_decision catalog decision = ErrorResult error decision)
   /\ (render_reply (route_decision catalog decision)).1
      = {| reply_message := _DEFAULT_ERROR_MESSAGE; vehicles := [];
           success := false |})
  /\ (forall found,
        Catalog.search_vehicles catalog (make decision) (model decision)
          (year decision) None (price_max decision) = inr found ->
        Catalog.total_count found <> 0
        \/ (PyStr.truthy_opt (make decision) = false
            /\ PyStr.truthy_opt (model decision) = false) ->
        route_decision catalog decision = SearchCarsResult found decision
        /\ vehicles (render_reply (route_decision catalog decision)).1
           = Catalog.results found
        /\ success (render_reply (route_decision catalog decision)).1 = true).
Proof.
  intros Ha Hamb. unfold route_decision, handle_search_cars.
  rewrite Ha, Hamb. split.
  - intros Hinv.
    destruct (CatalogFacts.validate_invalid _ _ _ _ _ Hinv) as [issues Hi].
    unfold Catalog.search_vehicles. rewrite Hi. simpl. eauto.
  - intros found -> Hor.
    assert ((Catalog.total_count found =? 0)
            && (PyStr.truthy_opt (make decision)
                || PyStr.truthy_opt (model decision)) = false) as ->.
    { destruct Hor as [Hne | [-> ->]]; [|by rewrite andb_false_r].
      apply Z.eqb_neq in Hne. by rewrite Hne. }
    auto.
Qed.

End WithExternals.

Lemma reply_flags_witness :
  success (@render_reply Sample.externals
             (ErrorResult "stock_id inválido" (decision_of GET_CAR_DETAILS))).1
  = false.
Proof.
  apply (proj1 (@reply_flags Sample.externals
                  (ErrorResult "stock_id inválido"
                               (decision_of GET_CAR_DETAILS)))).
  eauto.
Defined.

Lemma clarify_and_refusal_never_fail_witness :
  (action (decision_of OUT_OF_SCOPE) = CLARIFY
   \/ action (decision_of OUT_OF_SCOPE) = OUT_OF_SCOPE)
  /\ reply_message
       (@render_reply Sample.externals
          (@route_decision Sample.externals Sample.catalog
             (decision_of OUT_OF_SCOPE))).1
     = "Lo siento, eso está fuera de mi alcance.".
Proof.
  assert (Ha : action (decision_of OUT_OF_SCOPE) = CLARIFY
               \/ action (decision_of OUT_OF_SCOPE) = OUT_OF_SCOPE)
    by (right; reflexivity).
  split; [exact Ha|].
  destruct (@clarify_and_refusal_never_fail Sample.externals Sample.catalog
              (decision_of OUT_OF_SCOPE) Ha) as (_ & _ & _ & _ & Hdefault).
  apply Hdefault. reflexivity.
Defined.

Lemma respond_echoes_message_witness :
  let decision :=
    {| action := RESPOND; make := None; model := None; year := None;
       price_max := None; stock_id := None; down_payment := None;
       duration := None; info_query := None; message := Some "ok";
       missing_information := None; reason := None |} in
  action decision = RESPOND
  /\ @render_reply Sample.externals
       (@route_decision Sample.externals Sample.catalog decision)
     = ({| reply_message := "ok"; vehicles := []; success := true |}, []).
Proof.
  intros decision. split; [reflexivity|].
  apply (proj1 (@respond_echoes_message Sample.externals Sample.catalog
                  decision eq_refl) "ok"); reflexivity.
Defined.

Lemma search_handler_outcomes_witness :
  let decision := Sample.search (Some "Toyota") (Some "Corolla") None in
  let found :=
    SearchSpec.expected PyStr.strip Sample.catalog (Some "Toyota")
      (Some "Corolla") None None None in
  action decision = SEARCH_CARS
  /\ ambiguous_makes Sample.catalog decision = None
  /\ Catalog.total_count found = 1
  /\ @route_decision Sample.externals Sample.catalog decision
     = SearchCarsResult found decision.
Proof.
  intros decision found.
  assert (Hamb : ambiguous_makes Sample.catalog decision = None)
    by reflexivity.
  assert (Hs : @Catalog.search_vehicles Sample.externals Sample.catalog
                 (make decision) (model decision) (year decision) None
                 (price_max decision) = inr found)
    by (vm_compute; reflexivity).
  split; [reflexivity|]. split; [exact Hamb|]. split; [reflexivity|].
  destruct (@search_handler_outcomes Sample.externals Sample.catalog decision
              eq_refl Hamb) as [_ Hfound].
  apply (Hfound found Hs). left. discriminate.
Defined.

End HandlerFacts.

(** ** Lookups and listings *)

Module ListingFacts.
Import Catalog SearchSpec CatalogVocabulary ViewFacts.

(** A successful lookup returns the conversion of a catalogue row with the
    requested stock id, the first such row, whether the id was given as a
    number or as text that parses to that number. *)
Theorem lookup_returns_requested catalog stock_id r :
  get_vehicle_details catalog stock_id = inr r ->
  exists n v,
    int_of_stock_id stock_id = Some n
    /\ Catalog.stock_id r = n
    /\ In v catalog /\ r = to_result v
    /\ find_row catalog n = Some v
    /\ get_vehicle_details catalog (inl n) = inr r.
Proof.
  unfold get_vehicle_details. simpl.
  destruct (int_of_stock_id stock_id) as [n|]; [|discriminate].
  destruct (find_row catalog n) as [v|] eqn:Ef; [|discriminate].
  intros [= <-]. exists n, v.
  destruct (LookupFacts.find_row_Some _ _ _ Ef) as [Hin Hid].
  repeat split; try assumption. by rewrite Ef.
Qed.

Lemma lookup_returns_requested_witness :
  let r := to_result (mkRow 102 "honda" "civic" 2019 45000 (230000 # 1) "ex"
                            true true) in
  get_vehicle_details Sample.catalog (inr " 102 ") = inr r
  /\ exists n v, int_of_stock_id (inr " 102 ") = Some n
                 /\ Catalog.stock_id r = n
                 /\ In v Sample.catalog /\ r = to_result v
                 /\ find_row Sample.catalog n = Some v
                 /\ get_vehicle_details Sample.catalog (inl n) = inr r.
Proof.
  intros r.
  assert (Hg : get_vehicle_details Sample.catalog (inr " 102 ") = inr r)
    by (vm_compute; reflexivity).
  split; [exact Hg|].
  exact (lookup_returns_requested Sample.catalog (inr " 102 ") r Hg).
Defined.

(** The makes and the models the catalogue lists are display names of its
    rows, without duplicates and in ascending order.  A make filter keeps
    the models of the rows of that make (compared trimmed and lower-cased),
    so it lists a part of all models, and nothing for an unknown make; an
    empty make filter is no filter. *)
Theorem available_views_listing catalog :
  (forall name,
     In name (get_available_makes catalog)
     <-> exists v, In v catalog /\ PyStr.title (row_make v) = name)
  /\ (forall make name,
        PyStr.truthy make = true ->
        In name (get_available_models catalog (Some make))
        <-> exists v, In v catalog
                      /\ row_make v = PyStr.lower (PyStr.strip make)
                      /\ PyStr.title (row_model v) = name)
  /\ (forall make name,
        In name (get_available_models catalog make) ->
        In name (get_available_models catalog None))
  /\ get_available_models catalog (Some "") = get_available_models catalog None
  /\ List.NoDup (get_available_makes catalog)
  /\ ascending (get_available_makes catalog)
  /\ (forall make, List.NoDup (get_available_models catalog make)
                   /\ ascending (get_available_models catalog make)).
Proof.
  unfold get_available_makes, get_available_models.
  split; [|split; [|split; [|split; [|split; [|split]]]]].
  - intros name. rewrite PyStrFacts.in_sorted_set, in_map_iff.
    split; intros (v & ? & ?); eauto.
  - intros make name ->. rewrite PyStrFacts.in_sorted_set, in_map_iff. split.
    + intros (v & Ht & Hin). apply filter_In in Hin as [Hin Heq].
      apply String.eqb_eq in Heq. eauto.
    + intros (v & Hin & Hm & Ht). exists v. split; [exact Ht|].
      apply filter_In. split; [exact Hin | by apply String.eqb_eq].
  - intros [make|] name; [|done].
    destruct (PyStr.truthy make); [|done].
    rewrite !PyStrFacts.in_sorted_set, !in_map_iff.
    intros (v & Ht & Hin). apply filter_In in Hin as [Hin _]. eauto.
  - reflexivity.
  - apply sorted_set_NoDup.
  - apply sorted_ascending.
  - intros [make|]; [destruct (PyStr.truthy make)|];
      split; (apply sorted_set_NoDup || apply sorted_ascending).
Qed.

Lemma available_views_listing_witness :
  PyStr.truthy " TOYOTA" = true
  /\ get_available_models Sample.catalog (Some " TOYOTA")
     = ["Corolla"; "Yaris"]
  /\ (In "Yaris" (get_available_models Sample.catalog (Some " TOYOTA"))
      <-> exists v, In v Sample.catalog
                    /\ row_make v = PyStr.lower (PyStr.strip " TOYOTA")
                    /\ PyStr.title (row_model v) = "Yaris").
Proof.
  split; [reflexivity|]. split; [vm_compute; reflexivity|].
  destruct (available_views_listing Sample.catalog) as (_ & Hmodels & _).
  by apply Hmodels.
Defined.

End ListingFacts.

(** ** The order of the suggestions *)

Module SuggestOrder.
Import Core Agent SuggestSpec SuggestFacts SuggestOrderSpec.

Lemma scored_geb_total a b : scored_geb a b = false -> scored_geb b a = true.
Proof.
  unfold scored_geb. rewrite <- (Qcompare_antisym (fst a) (fst b)).
  destruct (Qcompare (fst a) (fst b)); simpl; try done.
  intros Hf. destruct (String.leb_total (snd a) (snd b)); congruence.
Qed.

Lemma scored_geb_Qle a b : scored_geb a b = true -> (fst b <= fst a)%Q.
Proof.
  unfold scored_geb. intros Hg. apply Qge_alt.
  destruct (Qcompare (fst a) (fst b)); congruence.
Qed.

Lemma insert_desc_hd x y l :
  scored_geb y x = true ->
  HdRel (fun a b => scored_geb a b = true) y l ->
  HdRel (fun a b => scored_geb a b = true) y (insert_desc x l).
Proof.
  intros Hyx Hhd. destruct l as [|z l]; simpl; [by constructor|].
  destruct (scored_geb x z); constructor; [exact Hyx|]. by inversion Hhd.
Qed.

Lemma insert_desc_best_first x l : best_first l -> best_first (insert_desc x l).
Proof.
  unfold best_first. induction l as [|y l IH]; simpl; intros Hs.
  - repeat constructor.
  - destruct (scored_geb x y) eqn:E.
    + constructor; [exact Hs | by constructor].
    + inversion Hs as [|? ? Hs' Hhd]; subst. constructor; [by apply IH|].
      apply insert_desc_hd; [by apply scored_geb_total | exact Hhd].
Qed.

Lemma sorted_desc_best_first l : best_first (sorted_desc l).
Proof.
  induction l as [|x l IH]; simpl; [constructor|].
  by apply insert_desc_best_first.
Qed.

Lemma firstn_best_first n l : best_first l -> best_first (firstn n l).
Proof.
  unfold best_first. revert l. induction n as [|n IH]; intros l Hs; simpl;
    [constructor|].
  destruct l as [|x l]; [constructor|].
  inversion Hs as [|? ? Hs' Hhd]; subst. constructor; [by apply IH|].
  destruct l as [|y l]; [destruct n; constructor|].
  destruct n; simpl; [constructor|]. constructor. by inversion Hhd.
Qed.

Section WithExternals.
Context `{Externals}.

Lemma omap_closest_first d word (l : list Scored) :
  best_first l ->
  (forall q x, In (q, x) l ->
     q = ratio x word
     /\ exists v, dict_get d x = Some v /\ PyStr.lower v = x) ->
  closest_first word (omap (dict_get d) (map snd l)).
Proof.
  unfold best_first, closest_first.
  induction l as [|[q x] l IH]; intros Hs Hall; cbn; [constructor|].
  inversion Hs as [|? ? Hs' Hhd]; subst.
  assert (Hall' : forall q x, In (q, x) l ->
            q = ratio x word
            /\ exists v, dict_get d x = Some v /\ PyStr.lower v = x)
    by (intros; apply Hall; by right).
  specialize (IH Hs' Hall').
  destruct (Hall q x (or_introl eq_refl)) as [-> (v & Ev & Hv)].
  rewrite Ev. constructor; [exact IH|].
  destruct l as [|[q' x'] l]; cbn; [constructor|].
  destruct (Hall' q' x' (or_introl eq_refl)) as [-> (v' & Ev' & Hv')].
  rewrite Ev'. constructor. rewrite Hv, Hv'.
  inversion Hhd as [|? ? Hg]; subst. by apply scored_geb_Qle in Hg.
Qed.

(** The suggestions for a value are options of the pool, at most three of
    them, each at least 0.8 similar to the value once both are
    lower-cased and the value trimmed, the most similar first; an empty
    value has no suggestions. *)
Theorem suggestions_are_close_options value options :
  let suggestions := _suggest_matches value options in
  (length suggestions <= 3)%nat
  /\ (forall s, In s suggestions -> In s options /\ close_enough value s)
  /\ closest_first (PyStr.lower (PyStr.strip value)) suggestions
  /\ (suggestions <> []
      <-> PyStr.truthy value = true
          /\ exists opt, In opt options /\ close_enough value opt)
  /\ _suggest_matches "" options = [].
Proof.
  intros suggestions. subst suggestions.
  split; [apply suggest_length|]. split; [apply suggest_In|].
  split; [|split; [apply suggest_nonempty | reflexivity]].
  unfold _suggest_matches. destruct (negb (PyStr.truthy value));
    [constructor|].
  unfold get_close_matches.
  set (word := PyStr.lower (PyStr.strip value)).
  set (d := options_map options).
  set (scored := map (fun x => (ratio x word, x))
                     (List.filter (fun x => Qle_bool (8 # 10) (ratio x word))
                                  (dict_keys d))).
  apply omap_closest_first.
  - apply firstn_best_first, sorted_desc_best_first.
  - intros q x Hin. apply in_firstn in Hin.
    apply (proj1 (in_sorted_desc _ _)) in Hin.
    apply in_map_iff in Hin as (y & [= <- <-] & Hy).
    apply filter_In in Hy as [Hk _]. split; [reflexivity|].
    destruct (dict_get_key d y Hk) as [v Hv]. exists v. split; [exact Hv|].
    by apply (options_map_get options).
Qed.

End WithExternals.
Lemma suggestions_are_close_options_witness :
  @_suggest_matches Sample.externals " TOYOT " ["Honda"; "Toyota"; "Toyoda"]
  = ["Toyota"]
  /\ (In "Toyota" (@_suggest_matches Sample.externals " TOYOT "
                     ["Honda"; "Toyota"; "Toyoda"]) ->
      In "Toyota" ["Honda"; "Toyota"; "Toyoda"]
      /\ @close_enough Sample.externals " TOYOT " "Toyota").
Proof.
  split; [vm_compute; reflexivity|].
  destruct (@suggestions_are_close_options Sample.externals " TOYOT "
              ["Honda"; "Toyota"; "Toyoda"]) as (_ & Hin & _).
  apply Hin.
Defined.

End SuggestOrder.

(** ** A whole turn *)

Module TurnFacts.
Import Core Selection Storage Agent Conversation.

(** A second [get_or_create] returns the context of the first and changes
    nothing, as long as that context has not expired in between. *)
Theorem get_or_create_twice self now now' sid :
  let ctx := (get_or_create self now sid).1 in
  let self' := (get_or_create self now sid).2 in
  now' - updated_at ctx <= _ttl self ->
  get_or_create self' now' sid = (ctx, self').
Proof.
  intros ctx self' Hle. subst ctx self'.
  assert (Hs : _store (get_or_create self now sid).2 !! sid
               = Some (get_or_create self now sid).1
               /\ _ttl (get_or_create self now sid).2 = _ttl self).
  { unfold get_or_create. destruct (_store self !! sid) as [c|] eqn:E.
    - destruct (negb (_is_expired self now c)); simpl;
        [auto | split; [apply lookup_insert_eq | reflexivity]].
    - simpl. split; [apply lookup_insert_eq | reflexivity]. }
  destruct Hs as [Hs Httl].
  apply (proj1 (StoreLifecycle.get_or_create_cases _ now' sid) _ Hs). by rewrite Httl.
Qed.

Lemma get_or_create_twice_witness :
  5 - updated_at (get_or_create Sample.adapter 1 "user-123").1
  <= _ttl Sample.adapter
  /\ get_or_create (get_or_create Sample.adapter 1 "user-123").2 5 "user-123"
     = ((get_or_create Sample.adapter 1 "user-123").1,
        (get_or_create Sample.adapter 1 "user-123").2).
Proof.
  assert (Hle : 5 - updated_at (get_or_create Sample.adapter 1 "user-123").1
                <= _ttl Sample.adapter).
  { rewrite (proj2 (StoreLifecycle.get_or_create_cases Sample.adapter 1 "user-123"));
      [vm_compute; discriminate|].
    left. apply lookup_singleton_ne. discriminate. }
  split; [exact Hle|].
  exact (get_or_create_twice Sample.adapter 1 5 "user-123" Hle).
Defined.

(** A whole turn on a store that files every context under its own
    session id: after [start_turn], [update_context] and
    [persist_context], a read within the time to live returns the turn's
    context, stamped with the time of the save.  Its history is the most
    recent 20 of the live history (none for a new or expired session)
    followed by the user's message and the reply, and it records the
    action. *)
Theorem turn_is_read_back store now now' t t' t'' later sid user_message
    reply action :
  (forall stored, _store store !! sid = Some stored ->
                  session_id stored = sid) ->
  later - t'' <= _ttl store ->
  let ctx := (start_turn store now now' sid user_message).1 in
  let store1 := (start_turn store now now' sid user_message).2 in
  let ctx' := update_context ctx reply action t t' in
  let store2 := persist_context store1 t'' ctx' in
  (get_context store2 later sid).1 = Some (touch ctx' t'')
  /\ last_action ctx' = Some action
  /\ exists history,
       messages ctx'
       = last_n 20 (history ++ [mkMessage USER user_message now';
                                mkMessage ASSISTANT (reply_message reply) t'])
       /\ (forall stored, _store store !! sid = Some stored ->
           now - updated_at stored <= _ttl store ->
           history = messages stored)
       /\ (_store store !! sid = None
           \/ (exists stored, _store store !! sid = Some stored
                              /\ _ttl store < now - updated_at stored) ->
           history = []).
Proof.
  intros Hfiled Hlater ctx store1 ctx' store2.
  assert (Hmsg : forall c,
            messages (update_context (add_user_message c user_message now')
                        reply action t t')
            = last_n 20 (messages c
                         ++ [mkMessage USER user_message now';
                             mkMessage ASSISTANT (reply_message reply) t'])).
  { intros c. unfold update_context, add_assistant_message, add_user_message.
    rewrite CoreFacts.messages_add_message.
    assert (forall x, messages (set_last_action
                        match vehicles reply with
                        | [] => x
                        | _ :: _ =>
                            set_search_results x
                              (_to_selected_vehicles (vehicles reply)) t
                        end action) = messages x) as ->
      by (intros x; by destruct (vehicles reply)).
    rewrite CoreFacts.messages_add_message. change MAX_MESSAGES with 20%nat.
    rewrite CoreFacts.last_n_snoc. by rewrite <- app_assoc. }
  assert (Hsid : forall c, session_id (update_context
                     (add_user_message c user_message now') reply action t t')
                   = session_id c).
  { intros c. unfold update_context. by destruct (vehicles reply). }
  assert (Hread : forall c s1,
            session_id c = sid -> _ttl s1 = _ttl store ->
            (get_context
               (persist_context s1 t''
                  (update_context (add_user_message c user_message now')
                                  reply action t t')) later sid).1
            = Some (touch (update_context
                             (add_user_message c user_message now') reply
                             action t t') t'')).
  { intros c s1 Hc Httl. unfold get_context, persist_context.
    specialize (Hsid c).
    set (c' := update_context (add_user_message c user_message now') reply
                              action t t') in *.
    rewrite (StorageFacts.get_live (save s1 t'' c') later sid (touch c' t''));
      [reflexivity | |].
    - unfold save. cbn [_store with_store session_id touch].
      rewrite Hsid, Hc. apply lookup_insert_eq.
    - unfold save. cbn [_ttl with_store updated_at touch]. by rewrite Httl. }
  subst ctx store1 ctx' store2. unfold start_turn.
  destruct (StoreLifecycle.get_or_create_cases store now sid) as [Hlive Hfresh].
  destruct (_store store !! sid) as [stored|] eqn:Es.
  - destruct (Z.le_gt_cases (now - updated_at stored) (_ttl store))
      as [Hle|Hgt].
    + rewrite (Hlive stored eq_refl Hle). cbn [fst snd].
      split; [apply Hread; [by apply Hfiled | reflexivity]|].
      split; [reflexivity|]. exists (messages stored).
      split; [apply Hmsg|]. split; [by intros ? [= <-] _|].
      intros [[=] | (s' & [= <-] & Hlt)]. lia.
    + rewrite Hfresh by (right; eauto). cbn [fst snd].
      split; [apply Hread; reflexivity|].
      split; [reflexivity|]. exists [].
      split; [apply Hmsg|]. split; [|reflexivity].
      intros ? [= <-] Hle. lia.
  - rewrite Hfresh by (by left). cbn [fst snd].
    split; [apply Hread; reflexivity|].
    split; [reflexivity|]. exists [].
    split; [apply Hmsg|]. split; [intros ? [=] | reflexivity].
Qed.

Lemma sample_adapter_filed stored :
  _store Sample.adapter !! "s1" = Some stored -> session_id stored = "s1".
Proof.
  rewrite StorageFacts.sample_adapter_lookup. by intros [= <-].
Qed.

Lemma turn_is_read_back_witness :
  let reply := mkReply "ok" [] true in
  let ctx := (start_turn Sample.adapter 1 2 "s1" "hola").1 in
  let store1 := (start_turn Sample.adapter 1 2 "s1" "hola").2 in
  let ctx' := update_context ctx reply "respond" 3 4 in
  (forall stored, _store Sample.adapter !! "s1" = Some stored ->
                  session_id stored = "s1")
  /\ 6 - 5 <= _ttl Sample.adapter
  /\ (get_context (persist_context store1 5 ctx') 6 "s1").1
     = Some (touch ctx' 5)
  /\ map content (messages ctx') = ["hola"; "ok"].
Proof.
  intros reply ctx store1 ctx'.
  assert (Hle : 6 - 5 <= _ttl Sample.adapter) by (vm_compute; discriminate).
  split; [exact sample_adapter_filed|]. split; [exact Hle|].
  destruct (turn_is_read_back Sample.adapter 1 2 3 4 5 6 "s1" "hola" reply
              "respond" sample_adapter_filed Hle) as (Hread & _ & Hhist).
  split; [exact Hread|].
  destruct Hhist as (history & Hm & Hlive & _).
  fold ctx ctx' in Hm. rewrite Hm.
  rewrite (Hlive (new_context "s1" 0) StorageFacts.sample_adapter_lookup);
    [reflexivity | vm_compute; discriminate].
Defined.

End TurnFacts.
